(** * Query-parameter translator of core-backend/pkg/query

    A shallow embedding of the Go package [query] (entity configuration
    registry, query options, clause builder, request parser, pagination
    response helpers) together with theorems about its behaviour.

    Conventions of the embedding:
    - Go's [int] and [int64] are 64-bit two's-complement integers (as on
      amd64 and arm64): a value is a [Z] in [[-2^63, 2^63)], and every
      arithmetic operation that can leave that range is wrapped with
      [wrap64].
    - Go strings are [string] (sequences of bytes).
    - A [*gorm.DB] handle is the sequence of clause-builder calls made on it
      so far; the data layer that turns the calls into SQL is external.
    - The process-wide [configRegistry] is an explicit [gmap] argument. *)

From Stdlib Require Import ZArith Lia Ascii String List.
From stdpp Require Import gmap strings list fin_maps.

Local Open Scope string_scope.
Local Open Scope list_scope.
Local Open Scope Z_scope.

(** ** Go integers *)

Module GoInt.

Definition min_int : Z := - 2 ^ 63.
Definition max_int : Z := 2 ^ 63 - 1.

(** Membership in the range of [int] / [int64]. *)
Definition in_range (z : Z) : Prop := min_int <= z <= max_int.

(** Two's-complement wrap-around to 64 bits. *)
Definition wrap64 (z : Z) : Z := (z + 2 ^ 63) mod 2 ^ 64 - 2 ^ 63.

Definition add (a b : Z) : Z := wrap64 (a + b).
Definition sub (a b : Z) : Z := wrap64 (a - b).
Definition mul (a b : Z) : Z := wrap64 (a * b).

(** Outcome of an operation that may panic at run time. *)
Inductive result (A : Type) : Type :=
| Ok (a : A)
| Panic (msg : string).
Arguments Ok {A} a.
Arguments Panic {A} msg.

Definition bind {A B} (r : result A) (k : A -> result B) : result B :=
  match r with
  | Ok a => k a
  | Panic m => Panic m
  end.

(** [a / b]: truncated division; a zero divisor is a run-time panic, and
    [min_int / -1] wraps back to [min_int]. *)
Definition quo (a b : Z) : result Z :=
  if b =? 0 then Panic "runtime error: integer divide by zero"
  else Ok (wrap64 (Z.quot a b)).

(** [a % b]: remainder with the sign of the dividend. *)
Definition rem (a b : Z) : result Z :=
  if b =? 0 then Panic "runtime error: integer divide by zero"
  else Ok (Z.rem a b).

End GoInt.

(** ** The parts of Go's [strings] and [strconv] the package uses *)

Module GoStrings.

(** Lower-casing of one byte of the ASCII range. *)
Definition lower_ascii (c : ascii) : ascii :=
  let n := nat_of_ascii c in
  if (65 <=? n)%nat && (n <=? 90)%nat then ascii_of_nat (n + 32) else c.

(** [strings.ToLower] on ASCII text.  On text with other runes Go applies
    the Unicode mapping; no rune outside ASCII lower-cases to one of the
    letters d, e, s, c or t, so the comparisons made by the package are the
    same. *)
Fixpoint ToLower (s : string) : string :=
  match s with
  | EmptyString => EmptyString
  | String c r => String (lower_ascii c) (ToLower r)
  end.

(** [strings.Split(s, sep)] for a one-byte separator: the pieces between
    the separators, always at least one piece. *)
Fixpoint Split (s : string) (sep : ascii) : list string :=
  match s with
  | EmptyString => [EmptyString]
  | String c r =>
      if Ascii.eqb c sep then EmptyString :: Split r sep
      else match Split r sep with
           | [] => [String c EmptyString]
           | p :: ps => String c p :: ps
           end
  end.

(** [strings.Join(elems, sep)]. *)
Definition Join (elems : list string) (sep : string) : string :=
  String.concat sep elems.

Definition is_digit (c : ascii) : bool :=
  let n := nat_of_ascii c in (48 <=? n)%nat && (n <=? 57)%nat.

Definition digit_val (c : ascii) : Z := Z.of_nat (nat_of_ascii c) - 48.

(** Value of a non-empty run of decimal digits, [None] on any other byte. *)
Fixpoint digits (s : string) (acc : Z) : option Z :=
  match s with
  | EmptyString => Some acc
  | String c r => if is_digit c then digits r (acc * 10 + digit_val c) else None
  end.

Definition unsigned (s : string) : option Z :=
  match s with
  | EmptyString => None
  | _ => digits s 0
  end.

(** [strconv.Atoi]: an optional sign and decimal digits; [None] stands for
    a non-nil error (syntax error, or a value outside [int]). *)
Definition Atoi (s : string) : option Z :=
  let signed :=
    match s with
    | String "-"%char r => option_map Z.opp (unsigned r)
    | String "+"%char r => unsigned r
    | _ => unsigned s
    end in
  match signed with
  | Some n => if (GoInt.min_int <=? n) && (n <=? GoInt.max_int) then Some n else None
  | None => None
  end.

End GoStrings.

(** ** The package [query] *)

Module Query.
Import GoInt GoStrings.

(** *** query_config.go: the entity configuration registry *)

Record EntityConfig : Type := {
  SearchableColumns : list string;
  SortableColumns : list string;
  DefaultSort : list string;
  DefaultIncludes : list string
}.

(** The package variable [configRegistry], passed explicitly. *)
Abbreviation Registry := (gmap string EntityConfig).

Definition RegisterConfig (reg : Registry) (entityType : string)
    (config : EntityConfig) : Registry :=
  <[entityType := config]> reg.

Definition GetConfig (reg : Registry) (entityType : string) : option EntityConfig :=
  reg !! entityType.

(** [slices.Contains] on a slice of strings. *)
Fixpoint Contains (s : list string) (v : string) : bool :=
  match s with
  | [] => false
  | x :: r => String.eqb x v || Contains r v
  end.

Definition IsValidSortColumn (reg : Registry) (entityType column : string) : bool :=
  match GetConfig reg entityType with
  | None => false
  | Some config => Contains (SortableColumns config) column
  end.

Definition IsValidSearchColumn (reg : Registry) (entityType column : string) : bool :=
  match GetConfig reg entityType with
  | None => false
  | Some config => Contains (SearchableColumns config) column
  end.

(** *** The query options and the builder *)

Definition DefaultPage : Z := 1.
Definition DefaultPageSize : Z := 20.
Definition MaxPageSize : Z := 100.

(** A value of a filter entry or of a bound query argument ([interface{}]). *)
Inductive Scalar : Type :=
| SString (s : string)
| SInt (n : Z)
| SBool (b : bool).

Record QueryOptions : Type := {
  Page : Z;
  PageSize : Z;
  SortBy : list string;
  SortOrder : list string;
  Search : string;
  SearchColumns : list string;
  Filters : gmap string Scalar;
  Preload : list string;
  IncludeArchived : bool
}.

Record QueryBuilder : Type := {
  entityType : string;
  config : option EntityConfig
}.

Definition NewQueryBuilder (reg : Registry) (entityType : string) : QueryBuilder :=
  {| entityType := entityType; config := GetConfig reg entityType |}.

(** One call of the clause-builder interface of the data layer. *)
Inductive Call : Type :=
| CallSession
| CallOffset (offset : Z)
| CallLimit (limit : Z)
| CallOrder (value : string)
| CallWhereMap (conds : gmap string Scalar)
| CallWhere (query : string) (args : list Scalar)
| CallPreload (name : string)
| CallUnscoped.

(** A [*gorm.DB]: the calls made so far, oldest first. *)
Abbreviation DB := (list Call).

Definition applyPagination (q : QueryBuilder) (db : DB) (opts : QueryOptions) : DB :=
  let page := if Page opts <? 1 then DefaultPage else Page opts in
  let pageSize := if PageSize opts <? 1 then DefaultPageSize else PageSize opts in
  let pageSize := if pageSize >? MaxPageSize then MaxPageSize else pageSize in
  let offset := mul (sub page 1) pageSize in
  db ++ [CallOffset offset; CallLimit pageSize].

(** The direction chosen for the column at index [i] of [SortBy]. *)
Definition orderAt (sortOrder : list string) (i : nat) : string :=
  match sortOrder !! i with
  | Some o => if String.eqb (ToLower o) "desc" then "desc" else "asc"
  | None => "asc"
  end.

(** The loop of [applySorting] over [SortBy] from index [i] on, appending to
    [orderClauses]. *)
Fixpoint sortLoop (q : QueryBuilder) (reg : Registry) (sortOrder : list string)
    (i : nat) (sortBy : list string) (orderClauses : list string) : list string :=
  match sortBy with
  | [] => orderClauses
  | col :: rest =>
      if negb (String.eqb (entityType q) "") && negb (IsValidSortColumn reg (entityType q) col)
      then sortLoop q reg sortOrder (S i) rest orderClauses
      else sortLoop q reg sortOrder (S i) rest
             (orderClauses ++ [col +:+ " " +:+ orderAt sortOrder i])
  end.

(** The second half of [applySorting], run on the effective [SortBy] and
    [SortOrder]. *)
Definition applyOrder (q : QueryBuilder) (reg : Registry) (db : DB)
    (sortBy sortOrder : list string) : DB :=
  let orderClauses := sortLoop q reg sortOrder 0 sortBy [] in
  if (0 <? length orderClauses)%nat
  then db ++ [CallOrder (Join orderClauses ", ")]
  else db.

Definition applySorting (q : QueryBuilder) (reg : Registry) (db : DB)
    (opts : QueryOptions) : DB :=
  if (length (SortBy opts) =? 0)%nat then
    match config q with
    | Some cfg =>
        if (0 <? length (DefaultSort cfg))%nat
        then applyOrder q reg db (DefaultSort cfg)
               (replicate (length (DefaultSort cfg)) "asc")
        else db ++ [CallOrder "created_at desc"]
    | None => db ++ [CallOrder "created_at desc"]
    end
  else applyOrder q reg db (SortBy opts) (SortOrder opts).

Definition applyFilters (q : QueryBuilder) (db : DB) (opts : QueryOptions) : DB :=
  if (0 <? size (Filters opts))%nat then db ++ [CallWhereMap (Filters opts)] else db.

(** The loop of [applySearch], appending to [conditions] and [args]. *)
Fixpoint searchLoop (q : QueryBuilder) (reg : Registry) (searchTerm : string)
    (searchColumns : list string) (conditions : list string) (args : list Scalar)
    : list string * list Scalar :=
  match searchColumns with
  | [] => (conditions, args)
  | col :: rest =>
      if negb (String.eqb (entityType q) "") && negb (IsValidSearchColumn reg (entityType q) col)
      then searchLoop q reg searchTerm rest conditions args
      else searchLoop q reg searchTerm rest
             (conditions ++ [col +:+ " ILIKE ?"]) (args ++ [SString searchTerm])
  end.

(** The candidate columns of [applySearch]. *)
Definition searchCandidates (q : QueryBuilder) (opts : QueryOptions) : list string :=
  match config q with
  | Some cfg =>
      if (length (SearchColumns opts) =? 0)%nat then SearchableColumns cfg
      else SearchColumns opts
  | None => SearchColumns opts
  end.

Definition applySearch (q : QueryBuilder) (reg : Registry) (db : DB)
    (opts : QueryOptions) : DB :=
  if String.eqb (Search opts) "" then db
  else
    let searchColumns := searchCandidates q opts in
    if (length searchColumns =? 0)%nat then db
    else
      let searchTerm := "%" +:+ Search opts +:+ "%" in
      let '(conditions, args) := searchLoop q reg searchTerm searchColumns [] [] in
      if (0 <? length conditions)%nat
      then db ++ [CallWhere ("(" +:+ Join conditions " OR " +:+ ")") args]
      else db.

Definition applyPreload (q : QueryBuilder) (db : DB) (opts : QueryOptions) : DB :=
  fold_left (fun (db : DB) preload => db ++ [CallPreload preload]) (Preload opts) db.

Definition applyQuery (q : QueryBuilder) (reg : Registry) (db : DB)
    (opts : QueryOptions) (archived : bool) : DB :=
  let db := applyPagination q db opts in
  let db := applySorting q reg db opts in
  let db := applyFilters q db opts in
  let db := applySearch q reg db opts in
  let db := applyPreload q db opts in
  if archived
  then db ++ [CallUnscoped; CallWhere "deleted_at IS NOT NULL" []]
  else db ++ [CallWhere "deleted_at IS NULL" []].

Definition Build (q : QueryBuilder) (reg : Registry) (db : DB) (opts : QueryOptions) : DB :=
  applyQuery q reg db opts false.

Definition BuildArchived (q : QueryBuilder) (reg : Registry) (db : DB)
    (opts : QueryOptions) : DB :=
  applyQuery q reg db opts true.

(** The query on which [Count] runs the data layer's count. *)
Definition CountQuery (q : QueryBuilder) (reg : Registry) (db : DB)
    (opts : QueryOptions) (archived : bool) : DB :=
  applyQuery q reg (db ++ [CallSession]) opts archived.

(** [Count]; [exec] is the data layer's count of the rows a query selects,
    stored into an [int64]. *)
Definition Count (exec : DB -> Z) (q : QueryBuilder) (reg : Registry) (db : DB)
    (opts : QueryOptions) (archived : bool) : Z :=
  wrap64 (exec (CountQuery q reg db opts archived)).

Definition DefaultQueryOptions : QueryOptions :=
  {| Page := DefaultPage;
     PageSize := DefaultPageSize;
     SortBy := ["created_at"];
     SortOrder := ["desc"];
     Search := "";
     SearchColumns := [];
     Filters := ∅;
     Preload := [];
     IncludeArchived := false |}.

(** *** query_defaults: the registrations shipped with the package *)

Definition RegisterDefaultConfigs (reg : Registry) : Registry :=
  RegisterConfig reg "base_model"
    {| SearchableColumns := ["id"; "created_at"; "updated_at"];
       SortableColumns := ["id"; "created_at"; "updated_at"];
       DefaultSort := ["created_at"];
       DefaultIncludes := [] |}.

Definition ExampleRegistration (reg : Registry) : Registry :=
  let reg := RegisterConfig reg "user"
    {| SearchableColumns := ["name"; "email"; "phone"];
       SortableColumns := ["name"; "email"; "created_at"; "updated_at"];
       DefaultSort := ["created_at"];
       DefaultIncludes := ["Role"] |} in
  RegisterConfig reg "product"
    {| SearchableColumns := ["name"; "description"; "sku"];
       SortableColumns := ["name"; "price"; "created_at"; "updated_at"];
       DefaultSort := ["name"];
       DefaultIncludes := ["Category"; "Tags"] |}.

(** *** query_middleware.go: the request parser and the response helpers *)

(** The query string of a request, as [url.Values]. *)
Abbreviation Values := (gmap string (list string)).

(** [c.Query(key)]: the first value of the key, or the empty string.  (A
    parsed query string has no key with an empty list of values.) *)
Definition Query (c : Values) (key : string) : string :=
  match c !! key with
  | Some (v :: _) => v
  | _ => ""
  end.

(** The parameter names [parseFilters] skips. *)
Definition reserved (key : string) : bool :=
  String.eqb key "page" || String.eqb key "pageSize" || String.eqb key "sortBy"
  || String.eqb key "sortOrder" || String.eqb key "search"
  || String.eqb key "searchColumns" || String.eqb key "preload"
  || String.eqb key "includeArchived".

(** The map [filters] built by the loop of [parseFilters]. *)
Definition collectFilters (c : Values) : gmap string Scalar :=
  map_imap (fun key values =>
              if reserved key then None
              else match values with
                   | v :: _ => Some (SString v)
                   | [] => None
                   end) c.

(** [parseFilters]: the [Filters] field after the call. *)
Definition parseFilters (c : Values) (opts : QueryOptions) : gmap string Scalar :=
  let filters := collectFilters c in
  if (0 <? size filters)%nat then filters else Filters opts.

(** A positive integer parameter, or the default. *)
Definition positiveOr (s : string) (default : Z) : Z :=
  if String.eqb s "" then default
  else match Atoi s with
       | Some n => if 0 <? n then n else default
       | None => default
       end.

Definition ParseFromRequest (c : Values) : QueryOptions :=
  let opts := DefaultQueryOptions in
  let sortBy := Query c "sortBy" in
  let sortOrder := Query c "sortOrder" in
  let search := Query c "search" in
  let searchColumns := Query c "searchColumns" in
  let preload := Query c "preload" in
  let includeArchived := Query c "includeArchived" in
  {| Page := positiveOr (Query c "page") (Page opts);
     PageSize := positiveOr (Query c "pageSize") (PageSize opts);
     SortBy := if String.eqb sortBy "" then SortBy opts else Split sortBy ",";
     SortOrder := if String.eqb sortOrder "" then SortOrder opts else Split sortOrder ",";
     Search := if String.eqb search "" then Search opts else search;
     SearchColumns :=
       if String.eqb searchColumns "" then SearchColumns opts else Split searchColumns ",";
     Filters := parseFilters c opts;
     Preload := if String.eqb preload "" then Preload opts else Split preload ",";
     IncludeArchived :=
       if String.eqb includeArchived "" then IncludeArchived opts
       else String.eqb includeArchived "true" || String.eqb includeArchived "1" |}.

(** The pagination metadata of a response ([gin.H] without ["data"]). *)
Record PageMeta : Type := {
  total : Z;
  page : Z;
  page_size : Z;
  total_pages : Z
}.

(** A paginated response: the payload and the metadata. *)
Record Response (T : Type) : Type := {
  data : list T;
  meta : PageMeta
}.
Arguments data {T} _.
Arguments meta {T} _.

(** The computation of [totalPages] shared by the two response helpers. *)
Definition totalPagesOf (total pageSize : Z) : result Z :=
  bind (quo total pageSize) (fun totalPages =>
  bind (rem total pageSize) (fun r =>
  Ok (if r >? 0 then add totalPages 1 else totalPages))).

Definition PaginatedResponse {T : Type} (data : list T) (total page pageSize : Z)
    : result (Response T) :=
  bind (totalPagesOf total pageSize) (fun totalPages =>
  Ok {| data := data;
        meta := {| total := total; page := page; page_size := pageSize;
                   total_pages := totalPages |} |}).

Definition RespondWithPagination (status : Z) (total page pageSize : Z)
    : result PageMeta :=
  bind (totalPagesOf total pageSize) (fun totalPages =>
  Ok {| total := total; page := page; page_size := pageSize;
        total_pages := totalPages |}).

Definition ParseEntityType {A : Type} (entity : A) : string :=
  let parts := Split (String "t" EmptyString) "." in
  if (0 <? length parts)%nat
  then ToLower (nth (length parts - 1) parts "")
  else "".

Definition Paginate (page pageSize : Z) : Z * Z :=
  let page := if page <? 1 then DefaultPage else page in
  let pageSize := if pageSize <? 1 then DefaultPageSize else pageSize in
  let pageSize := if pageSize >? MaxPageSize then MaxPageSize else pageSize in
  (page, pageSize).

Definition GetPageFromRequest (c : Values) : Z :=
  match Atoi (Query c "page") with
  | Some page => if page <? 1 then DefaultPage else page
  | None => DefaultPage
  end.

Definition GetPageSizeFromRequest (c : Values) : Z :=
  match Atoi (Query c "pageSize") with
  | Some pageSize =>
      if pageSize <? 1 then DefaultPageSize
      else if pageSize >? MaxPageSize then MaxPageSize
      else pageSize
  | None => DefaultPageSize
  end.

End Query.

(** ** The behaviour in the words of the specification

    Definitions that follow the wording of the specification, independent of
    the loops of the source; the theorems below compare the two. *)

Module Spec.
Import GoInt GoStrings Query.

(** Membership in the sortable whitelist of an entity type. *)
Definition sortable (reg : Registry) (entityType column : string) : Prop :=
  ∃ cfg, GetConfig reg entityType = Some cfg ∧ column ∈ SortableColumns cfg.

(** Membership in the searchable whitelist of an entity type. *)
Definition searchable (reg : Registry) (entityType column : string) : Prop :=
  ∃ cfg, GetConfig reg entityType = Some cfg ∧ column ∈ SearchableColumns cfg.

Definition either (c lower upper : ascii) : bool :=
  Ascii.eqb c lower || Ascii.eqb c upper.

(** The word "desc" in any mix of upper and lower case. *)
Definition isDescFold (o : string) : bool :=
  match o with
  | String a (String b (String c (String d EmptyString))) =>
      either a "d" "D" && either b "e" "E" && either c "s" "S" && either d "c" "C"
  | _ => false
  end.

(** The direction for a [SortOrder] entry, or for a missing one. *)
Definition direction (entry : option string) : string :=
  match entry with
  | Some o => if isDescFold o then "desc" else "asc"
  | None => "asc"
  end.

(** The requested columns that pass [valid], each with its position. *)
Definition retained (valid : string → bool) (sortBy : list string) : list (nat * string) :=
  filter (λ p, valid p.2 = true) (imap pair sortBy).

(** One element of the order-by clause. *)
Definition orderClause (sortOrder : list string) (p : nat * string) : string :=
  p.2 +:+ " " +:+ direction (sortOrder !! p.1).

(** The ordering applied for a list of clause elements: none for no element,
    else one [Order] call with the elements separated by commas. *)
Definition orderCalls (clauses : list string) : DB :=
  match clauses with
  | [] => []
  | _ => [CallOrder (Join clauses ", ")]
  end.

(** Sorting of explicitly requested columns under a validity check. *)
Definition sortingOf (valid : string → bool) (sortBy sortOrder : list string) : DB :=
  orderCalls (orderClause sortOrder <$> retained valid sortBy).

(** One case-insensitive contains condition. *)
Definition likeCondition (column : string) : string := column +:+ " ILIKE ?".

(** The search group for the surviving columns: nothing for no column, else
    one [Where] call with the conditions joined by OR inside parentheses and
    the wildcard-wrapped term bound once per condition. *)
Definition searchCalls (term : string) (survivors : list string) : DB :=
  match survivors with
  | [] => []
  | _ => [CallWhere ("(" +:+ Join (likeCondition <$> survivors) " OR " +:+ ")")
            (replicate (length survivors) (SString ("%" +:+ term +:+ "%")))]
  end.

(** The candidate columns of a search: the requested ones if there are any,
    else the configured searchable columns. *)
Definition candidates (cfg : option EntityConfig) (searchColumns : list string) : list string :=
  match searchColumns with
  | [] => match cfg with Some c => SearchableColumns c | None => [] end
  | _ => searchColumns
  end.

Definition searchOf (valid : string → bool) (cfg : option EntityConfig)
    (opts : QueryOptions) : DB :=
  searchCalls (Search opts) (filter (λ c, valid c = true) (candidates cfg (SearchColumns opts))).

(** The check the builder applies to a column: none for the empty entity
    type name, else the whitelist check. *)
Definition keepSort (reg : Registry) (entityType column : string) : bool :=
  String.eqb entityType "" || IsValidSortColumn reg entityType column.

Definition keepSearch (reg : Registry) (entityType column : string) : bool :=
  String.eqb entityType "" || IsValidSearchColumn reg entityType column.

(** The calls of the archive partition. *)
Definition archiveCalls (archived : bool) : DB :=
  if archived then [CallUnscoped; CallWhere "deleted_at IS NOT NULL" []]
  else [CallWhere "deleted_at IS NULL" []].

(** Normalized page number and page size. *)
Definition normPage (page : Z) : Z := if decide (page < 1) then 1 else page.

Definition normPageSize (pageSize : Z) : Z :=
  if decide (pageSize < 1) then 20
  else if decide (pageSize > 100) then 100
  else pageSize.

(** [n] is the ceiling of [a / b]. *)
Definition isCeiling (n a b : Z) : Prop := (n - 1) * b < a ≤ n * b.

(** Pagination with the offset taken as the product over the integers. *)
Definition exactPagination (q : QueryBuilder) (db : DB) (opts : QueryOptions) : Prop :=
  applyPagination q db opts
  = db ++ [CallOffset ((normPage (Page opts) - 1) * normPageSize (PageSize opts));
           CallLimit (normPageSize (PageSize opts))].

(** Sorting of requested columns with the whitelist check made for every
    entity type. *)
Definition sortingAsStated (reg : Registry) (et : string) (db : DB)
    (opts : QueryOptions) : Prop :=
  applySorting (NewQueryBuilder reg et) reg db opts
  = db ++ sortingOf (IsValidSortColumn reg et) (SortBy opts) (SortOrder opts).

(** Searching with the whitelist check made for every entity type. *)
Definition searchAsStated (reg : Registry) (et : string) (db : DB)
    (opts : QueryOptions) : Prop :=
  applySearch (NewQueryBuilder reg et) reg db opts
  = db ++ searchOf (IsValidSearchColumn reg et) (GetConfig reg et) opts.

(** The hard-coded ordering. *)
Definition fallbackOrder : DB := [CallOrder "created_at desc"].

Definition ascending (column : string) : string := column +:+ " asc".

(** Default sorting by every [DefaultSort] column of a registered
    configuration, the fallback only without a configuration. *)
Definition defaultSortAsStated (reg : Registry) (et : string) (db : DB)
    (opts : QueryOptions) : Prop :=
  applySorting (NewQueryBuilder reg et) reg db opts
  = db ++ match GetConfig reg et with
          | Some cfg => orderCalls (ascending <$> DefaultSort cfg)
          | None => fallbackOrder
          end.

(** The [DefaultSort] columns that pass the builder's check. *)
Definition defaultKept (et : string) (cfg : EntityConfig) : list string :=
  filter (λ c, et = "" ∨ c ∈ SortableColumns cfg) (DefaultSort cfg).

(** Default sorting by the kept [DefaultSort] columns, the fallback without
    a configuration or with an empty [DefaultSort]. *)
Definition defaultSortAmended (reg : Registry) (et : string) (db : DB)
    (opts : QueryOptions) : Prop :=
  applySorting (NewQueryBuilder reg et) reg db opts
  = db ++ match GetConfig reg et with
          | Some cfg =>
              match DefaultSort cfg with
              | [] => fallbackOrder
              | _ => orderCalls (ascending <$> defaultKept et cfg)
              end
          | None => fallbackOrder
          end.

(** An order-by value all of whose columns are [allowed]. *)
Definition orderWithin (allowed : string → Prop) (value : string) : Prop :=
  ∃ cols : list (string * string),
    value = Join ((λ p, p.1 +:+ " " +:+ p.2) <$> cols) ", "
    ∧ ∀ p, p ∈ cols → allowed p.1 ∧ (p.2 = "asc" ∨ p.2 = "desc").

(** A search group all of whose columns are [allowed]. *)
Definition searchWithin (allowed : string → Prop) (query : string) : Prop :=
  ∃ cols : list string,
    query = "(" +:+ Join (likeCondition <$> cols) " OR " +:+ ")"
    ∧ ∀ c, c ∈ cols → allowed c.

Definition isArchiveCondition (query : string) : Prop :=
  query = "deleted_at IS NULL" ∨ query = "deleted_at IS NOT NULL".

(** Every column of every order-by and search clause of a built query is in
    the entity's whitelist. *)
Definition whitelistAsStated (reg : Registry) (et : string) (opts : QueryOptions)
    (archived : bool) : Prop :=
  let calls := applyQuery (NewQueryBuilder reg et) reg [] opts archived in
  (∀ value, CallOrder value ∈ calls → orderWithin (sortable reg et) value)
  ∧ (∀ query args, CallWhere query args ∈ calls →
       isArchiveCondition query ∨ searchWithin (searchable reg et) query).

(** The situation in which the builder uses the hard-coded ordering. *)
Definition usesFallback (reg : Registry) (et : string) (opts : QueryOptions) : Prop :=
  SortBy opts = []
  ∧ (GetConfig reg et = None ∨ ∃ cfg, GetConfig reg et = Some cfg ∧ DefaultSort cfg = []).

(** The same, the hard-coded ordering excepted. *)
Definition whitelistAmended (reg : Registry) (et : string) (opts : QueryOptions)
    (archived : bool) : Prop :=
  let calls := applyQuery (NewQueryBuilder reg et) reg [] opts archived in
  (∀ value, CallOrder value ∈ calls →
     (value = "created_at desc" ∧ usesFallback reg et opts)
     ∨ orderWithin (sortable reg et) value)
  ∧ (∀ query args, CallWhere query args ∈ calls →
       isArchiveCondition query ∨ searchWithin (searchable reg et) query).

End Spec.

(** ** Concrete registries, options and requests used in the examples *)

Module Sample.
Import Query.

(** Options with the given paging, sorting and search and nothing else. *)
Definition options (page pageSize : Z) (sortBy sortOrder : list string)
    (search : string) (searchColumns : list string) : QueryOptions :=
  {| Page := page; PageSize := pageSize; SortBy := sortBy; SortOrder := sortOrder;
     Search := search; SearchColumns := searchColumns; Filters := ∅;
     Preload := []; IncludeArchived := false |}.

(** An entity "member" that may be sorted by "name" and searched by
    "email". *)
Definition members : Registry :=
  RegisterConfig ∅ "member"
    {| SearchableColumns := ["email"]; SortableColumns := ["name"];
       DefaultSort := ["name"]; DefaultIncludes := [] |}.

(** A configuration whose default sort column is not sortable. *)
Definition unsortableDefault : Registry :=
  RegisterConfig ∅ "member"
    {| SearchableColumns := ["email"]; SortableColumns := ["name"];
       DefaultSort := ["created_at"]; DefaultIncludes := [] |}.

(** A configuration without default sort columns. *)
Definition noDefault : Registry :=
  RegisterConfig ∅ "member"
    {| SearchableColumns := ["email"]; SortableColumns := ["name"];
       DefaultSort := []; DefaultIncludes := [] |}.

(** The request [?sortBy=name,email&status=active]. *)
Definition sortOnly : Values :=
  {[ "sortBy" := ["name,email"]; "status" := ["active"] ]}.

End Sample.

(** ** Views of the calls of a built query, and variants of options *)

Module Shape.
Import Query Spec.

(** The relation a call asks to eager load, if it is a [Preload] call. *)
Definition preloadName (c : Call) : option string :=
  match c with
  | CallPreload name => Some name
  | _ => None
  end.

(** The conditions of a call, if it is a [Where] call on a map. *)
Definition filterMap (c : Call) : option (gmap string Scalar) :=
  match c with
  | CallWhereMap conds => Some conds
  | _ => None
  end.

(** A list of calls with at most one element, which then satisfies [P]. *)
Definition atMostOne (P : Call → Prop) (calls : DB) : Prop :=
  calls = [] ∨ ∃ c, calls = [c] ∧ P c.

Definition isOrderCall (c : Call) : Prop := ∃ value, c = CallOrder value.

Definition isSearchCall (c : Call) : Prop :=
  ∃ conditions args, c = CallWhere ("(" +:+ conditions +:+ ")") args.

(** Ordering by every requested column, each with the direction found at
    its own position. *)
Definition uncheckedOrder (sortBy sortOrder : list string) : DB :=
  orderCalls (imap (λ i col, col +:+ " " +:+ direction (sortOrder !! i)) sortBy).

(** The options with another [IncludeArchived] flag. *)
Definition withIncludeArchived (b : bool) (opts : QueryOptions) : QueryOptions :=
  {| Page := Page opts; PageSize := PageSize opts; SortBy := SortBy opts;
     SortOrder := SortOrder opts; Search := Search opts;
     SearchColumns := SearchColumns opts; Filters := Filters opts;
     Preload := Preload opts; IncludeArchived := b |}.

(** The options with other [Filters]. *)
Definition withFilters (filters : gmap string Scalar) (opts : QueryOptions) : QueryOptions :=
  {| Page := Page opts; PageSize := PageSize opts; SortBy := SortBy opts;
     SortOrder := SortOrder opts; Search := Search opts;
     SearchColumns := SearchColumns opts; Filters := filters;
     Preload := Preload opts; IncludeArchived := IncludeArchived opts |}.

(** The first value of a parameter as a filter entry. *)
Definition firstValue (values : option (list string)) : option Scalar :=
  match values with
  | Some (v :: _) => Some (SString v)
  | _ => None
  end.

(** Whether the byte [b] occurs in [s]. *)
Fixpoint hasByte (b : ascii) (s : string) : bool :=
  match s with
  | EmptyString => false
  | String c r => Ascii.eqb c b || hasByte b r
  end.

(** The request [?pageSize=500&role=admin&role=guest&page=0&search=]. *)
Definition oversized : Values :=
  {[ "pageSize" := ["500"]; "role" := ["admin"; "guest"]; "page" := ["0"];
     "search" := [""] ]}.

End Shape.

(** ** Sorting of a parsed request without sortOrder *)

Module ParsedSort.
Import GoStrings Query Spec.

(** The builder's check of a column, read off the registry: any column for
    the empty entity type name, else a column in the SortableColumns of the
    registered configuration. *)
Definition passesCheck (reg : Registry) (et column : string) : bool :=
  String.eqb et ""
  || match reg !! et with
     | Some cfg => bool_decide (column ∈ SortableColumns cfg)
     | None => false
     end.

(** The first requested column is ordered descending: the order call starts
    with that column and "desc". *)
Definition firstColumnDescending (c : Values) (q : QueryBuilder) (reg : Registry)
    (db : DB) : Prop :=
  SortOrder (ParseFromRequest c) = ["desc"]
  ∧ ∃ col rest more,
      SortBy (ParseFromRequest c) = col :: rest
      ∧ applySorting q reg db (ParseFromRequest c)
        = db ++ [CallOrder (Join ((col +:+ " desc") :: more) ", ")].

(** The ordering of a request without sortOrder whose sortBy is
    [col :: rest]: [col] descending if it passes the check, then the columns
    of [rest] that pass, ascending. *)
Definition parsedOrder (reg : Registry) (et col : string) (rest : list string) : DB :=
  let kept := ascending <$> filter (λ c, passesCheck reg et c = true) rest in
  orderCalls (if passesCheck reg et col then (col +:+ " desc") :: kept else kept).

(** The request [?sortBy=unknownCol,name]. *)
Definition unknownFirst : Values := {[ "sortBy" := ["unknownCol,name"] ]}.

End ParsedSort.

(** * Properties *)

Import GoInt GoStrings Query Spec.

(** ** Integer facts *)

Lemma wrap64_id z : in_range z → wrap64 z = z.
Proof.
  unfold in_range, wrap64, min_int, max_int. intros H.
  rewrite Z.mod_small; lia.
Qed.

Lemma wrap64_range z : in_range (wrap64 z).
Proof.
  unfold in_range, wrap64, min_int, max_int.
  pose proof (Z.mod_pos_bound (z + 2 ^ 63) (2 ^ 64) ltac:(lia)). lia.
Qed.

Lemma wrap64_congr a b : (a - b) mod 2 ^ 64 = 0 → wrap64 a = wrap64 b.
Proof.
  intros H. unfold wrap64. f_equal.
  apply Z.mod_divide in H; [|lia]. destruct H as [k Hk].
  replace (a + 2 ^ 63) with (b + 2 ^ 63 + k * 2 ^ 64) by lia.
  apply Z.mod_add. lia.
Qed.

Lemma wrap64_self_congr a : (wrap64 a - a) mod 2 ^ 64 = 0.
Proof.
  unfold wrap64.
  pose proof (Z.div_mod (a + 2 ^ 63) (2 ^ 64) ltac:(lia)) as H.
  replace ((a + 2 ^ 63) mod 2 ^ 64 - 2 ^ 63 - a)
    with (- ((a + 2 ^ 63) / 2 ^ 64) * 2 ^ 64) by lia.
  apply Z.mod_mul. lia.
Qed.

Lemma mul_sub_wrap page pageSize :
  mul (sub page 1) pageSize = wrap64 ((page - 1) * pageSize).
Proof.
  unfold mul, sub. apply wrap64_congr.
  pose proof (wrap64_self_congr (page - 1)) as H.
  apply Z.mod_divide in H; [|lia]. destruct H as [k Hk].
  replace (wrap64 (page - 1) * pageSize - (page - 1) * pageSize)
    with (k * pageSize * 2 ^ 64) by lia.
  apply Z.mod_mul. lia.
Qed.

(** ** String facts *)

Ltac by_bytes c := destruct c as [[] [] [] [] [] [] [] []]; vm_compute; reflexivity.

Lemma lower_is_d c : Ascii.eqb (lower_ascii c) "d" = either c "d" "D".
Proof. by_bytes c. Qed.

Lemma lower_is_e c : Ascii.eqb (lower_ascii c) "e" = either c "e" "E".
Proof. by_bytes c. Qed.

Lemma lower_is_s c : Ascii.eqb (lower_ascii c) "s" = either c "s" "S".
Proof. by_bytes c. Qed.

Lemma lower_is_c c : Ascii.eqb (lower_ascii c) "c" = either c "c" "C".
Proof. by_bytes c. Qed.

Lemma ToLower_desc o : String.eqb (ToLower o) "desc" = isDescFold o.
Proof.
  destruct o as [|a [|b [|c [|d [|e o]]]]]; try reflexivity;
    cbn [ToLower isDescFold String.eqb];
    rewrite ?lower_is_d, ?lower_is_e, ?lower_is_s, ?lower_is_c;
    repeat match goal with
           | |- context [either ?x ?l ?u] => destruct (either x l u)
           end; reflexivity.
Qed.

Lemma orderAt_direction sortOrder i : orderAt sortOrder i = direction (sortOrder !! i).
Proof.
  unfold orderAt, direction. destruct (sortOrder !! i); [|done].
  by rewrite ToLower_desc.
Qed.

Lemma eqb_empty_false s : s ≠ "" → String.eqb s "" = false.
Proof. intros H. by apply String.eqb_neq. Qed.

(** ** The registry *)

Lemma Contains_elem_of s v : Contains s v = true ↔ v ∈ s.
Proof.
  induction s as [|x r IH]; simpl.
  - split; [done | by intros ?%elem_of_nil].
  - rewrite orb_true_iff, String.eqb_eq, IH, elem_of_cons.
    split; (intros [->|?]; [by left | by right]).
Qed.

Lemma IsValidSortColumn_sortable reg et col :
  IsValidSortColumn reg et col = true ↔ sortable reg et col.
Proof.
  unfold IsValidSortColumn, sortable. destruct (GetConfig reg et) as [cfg|].
  - rewrite Contains_elem_of. split.
    + intros H. by exists cfg.
    + by intros (cfg' & [= <-] & H).
  - split; [done | by intros (cfg' & ? & _)].
Qed.

Lemma IsValidSearchColumn_searchable reg et col :
  IsValidSearchColumn reg et col = true ↔ searchable reg et col.
Proof.
  unfold IsValidSearchColumn, searchable. destruct (GetConfig reg et) as [cfg|].
  - rewrite Contains_elem_of. split.
    + intros H. by exists cfg.
    + by intros (cfg' & [= <-] & H).
  - split; [done | by intros (cfg' & ? & _)].
Qed.

(** ** The loops of the builder *)

Section Loops.
Context (q : QueryBuilder) (reg : Registry).

Lemma skip_keepSort col :
  negb (String.eqb (entityType q) "") && negb (IsValidSortColumn reg (entityType q) col)
  = negb (keepSort reg (entityType q) col).
Proof. unfold keepSort. by rewrite negb_orb. Qed.

Lemma skip_keepSearch col :
  negb (String.eqb (entityType q) "") && negb (IsValidSearchColumn reg (entityType q) col)
  = negb (keepSearch reg (entityType q) col).
Proof. unfold keepSearch. by rewrite negb_orb. Qed.

(** The sort loop appends, in order, the clause of every kept column, with
    the direction found at the column's own index. *)
Lemma sortLoop_filter sortOrder sortBy : ∀ i orderClauses,
  sortLoop q reg sortOrder i sortBy orderClauses
  = orderClauses ++
    (orderClause sortOrder <$>
       filter (λ p, keepSort reg (entityType q) p.2 = true)
              (imap (λ j col, (i + j, col)%nat) sortBy)).
Proof.
  induction sortBy as [|col rest IH]; intros i acc.
  - simpl. by rewrite app_nil_r.
  - cbn [sortLoop]. rewrite skip_keepSort, imap_cons, filter_cons.
    rewrite (imap_ext _ (λ j c, (S i + j, c)%nat)) by (intros; simpl; f_equal; lia).
    cbn [snd]. rewrite Nat.add_0_r.
    destruct (keepSort reg (entityType q) col) eqn:Hk; cbn [negb].
    + rewrite decide_True by done. rewrite IH, fmap_cons, <- app_assoc.
      cbn [app]. unfold orderClause at 2. cbn [fst snd].
      by rewrite orderAt_direction.
    + rewrite decide_False by done. by rewrite IH.
Qed.

Lemma sortLoop_retained sortOrder sortBy :
  sortLoop q reg sortOrder 0 sortBy []
  = orderClause sortOrder <$> retained (keepSort reg (entityType q)) sortBy.
Proof.
  rewrite sortLoop_filter. unfold retained. cbn [app].
  by rewrite (imap_ext _ pair sortBy) by done.
Qed.

Lemma applyOrder_sortingOf db sortBy sortOrder :
  applyOrder q reg db sortBy sortOrder
  = db ++ sortingOf (keepSort reg (entityType q)) sortBy sortOrder.
Proof.
  unfold applyOrder, sortingOf, orderCalls. rewrite sortLoop_retained.
  destruct (orderClause sortOrder <$> _) as [|c cs]; cbn.
  - by rewrite app_nil_r.
  - done.
Qed.

(** The search loop appends one condition and one bound term per kept
    column. *)
Lemma searchLoop_filter term cols : ∀ conditions args,
  searchLoop q reg term cols conditions args
  = (conditions ++ (likeCondition <$> filter (λ c, keepSearch reg (entityType q) c = true) cols),
     args ++ replicate (length (filter (λ c, keepSearch reg (entityType q) c = true) cols))
               (SString term)).
Proof.
  induction cols as [|col rest IH]; intros conditions args.
  - simpl. by rewrite !app_nil_r.
  - cbn [searchLoop]. rewrite skip_keepSearch, filter_cons.
    destruct (keepSearch reg (entityType q) col) eqn:Hk; cbn [negb].
    + rewrite decide_True by done. rewrite IH, fmap_cons. cbn [length replicate].
      by rewrite <- !app_assoc.
    + rewrite decide_False by done. by rewrite IH.
Qed.

Lemma applySearch_searchOf db opts :
  Search opts ≠ "" →
  applySearch q reg db opts = db ++ searchOf (keepSearch reg (entityType q)) (config q) opts.
Proof.
  intros Hs. unfold applySearch, searchOf. rewrite eqb_empty_false by done.
  assert (searchCandidates q opts = candidates (config q) (SearchColumns opts)) as ->.
  { unfold searchCandidates, candidates.
    destruct (config q), (SearchColumns opts); reflexivity. }
  destruct (candidates (config q) (SearchColumns opts)) as [|c cs] eqn:Hc.
  - cbn. by rewrite app_nil_r.
  - cbn [length Nat.eqb]. rewrite searchLoop_filter. cbn [app].
    unfold searchCalls.
    destruct (filter _ (c :: cs)) as [|s ss]; cbn.
    + by rewrite app_nil_r.
    + done.
Qed.

Lemma applySearch_empty db opts :
  Search opts = "" → applySearch q reg db opts = db.
Proof. intros H. unfold applySearch. by rewrite H. Qed.

Lemma applyPreload_app db opts :
  applyPreload q db opts = db ++ (CallPreload <$> Preload opts).
Proof.
  unfold applyPreload. revert db.
  induction (Preload opts) as [|p ps IH]; intros db; simpl.
  - by rewrite app_nil_r.
  - rewrite IH, <- app_assoc. done.
Qed.

End Loops.

(** ** The steps of [applyQuery] as appended calls *)

Lemma retained_columns (valid : string → bool) (h : nat → nat) (l : list string) :
  snd <$> filter (λ p : nat * string, valid p.2 = true) (imap (λ j c, (h j, c)) l)
  = filter (λ c, valid c = true) l.
Proof.
  revert h. induction l as [|c l IH]; intros h; [done|].
  rewrite imap_cons, !filter_cons. cbn [snd].
  rewrite (imap_ext _ (λ j c, ((h ∘ S) j, c))) by done.
  destruct (decide (valid c = true)); [rewrite fmap_cons|]; by rewrite IH.
Qed.

Lemma orderClause_all_asc n (p : nat * string) :
  orderClause (replicate n "asc") p = p.2 +:+ " asc".
Proof.
  unfold orderClause, direction.
  destruct (replicate n "asc" !! p.1) as [o|] eqn:Ho; [|done].
  apply lookup_replicate_1 in Ho as [-> _]. done.
Qed.

Lemma sortingOf_default valid (defaultSort : list string) :
  sortingOf valid defaultSort (replicate (length defaultSort) "asc")
  = orderCalls ((λ c, c +:+ " asc") <$> filter (λ c, valid c = true) defaultSort).
Proof.
  unfold sortingOf. f_equal.
  rewrite <- (retained_columns valid id), <- list_fmap_compose.
  apply list_fmap_ext. intros i p _. apply orderClause_all_asc.
Qed.

Lemma applySorting_explicit q reg db opts :
  SortBy opts ≠ [] →
  applySorting q reg db opts
  = db ++ sortingOf (keepSort reg (entityType q)) (SortBy opts) (SortOrder opts).
Proof.
  intros H. unfold applySorting.
  destruct (SortBy opts) as [|c cs] eqn:Hs; [done|].
  cbn [length Nat.eqb]. by rewrite applyOrder_sortingOf.
Qed.

Lemma applySorting_default q reg db opts cfg :
  SortBy opts = [] → config q = Some cfg → DefaultSort cfg ≠ [] →
  applySorting q reg db opts
  = db ++ orderCalls ((λ c, c +:+ " asc") <$>
                      filter (λ c, keepSort reg (entityType q) c = true) (DefaultSort cfg)).
Proof.
  intros Hs Hc Hd. unfold applySorting. rewrite Hs, Hc. cbn [length Nat.eqb].
  destruct (DefaultSort cfg) as [|c cs] eqn:Heq; [done|].
  cbn [length Nat.ltb Nat.leb]. rewrite applyOrder_sortingOf.
  by rewrite <- sortingOf_default.
Qed.

Lemma applySorting_fallback q reg db opts :
  SortBy opts = [] →
  (config q = None ∨ ∃ cfg, config q = Some cfg ∧ DefaultSort cfg = []) →
  applySorting q reg db opts = db ++ [CallOrder "created_at desc"].
Proof.
  intros Hs Hc. unfold applySorting. rewrite Hs. cbn [length Nat.eqb].
  destruct Hc as [->|(cfg & -> & ->)]; done.
Qed.

Lemma applySorting_app q reg db opts :
  applySorting q reg db opts = db ++ applySorting q reg [] opts.
Proof.
  unfold applySorting.
  destruct (length (SortBy opts) =? 0)%nat; [destruct (config q) as [cfg|]|];
    try destruct (0 <? length (DefaultSort cfg))%nat;
    rewrite ?applyOrder_sortingOf; done.
Qed.

Lemma applySearch_app q reg db opts :
  applySearch q reg db opts = db ++ applySearch q reg [] opts.
Proof.
  destruct (String.eqb_spec (Search opts) "") as [H|H].
  - by rewrite !applySearch_empty, app_nil_r.
  - by rewrite (applySearch_searchOf _ _ db), (applySearch_searchOf _ _ []).
Qed.

Lemma applyFilters_app q db opts :
  applyFilters q db opts = db ++ applyFilters q [] opts.
Proof.
  unfold applyFilters. destruct (0 <? size (Filters opts))%nat; [done|].
  by rewrite app_nil_r.
Qed.

Lemma applyQuery_calls q reg db opts archived :
  applyQuery q reg db opts archived
  = db ++ applyPagination q [] opts ++ applySorting q reg [] opts
       ++ applyFilters q [] opts ++ applySearch q reg [] opts
       ++ (CallPreload <$> Preload opts) ++ archiveCalls archived.
Proof.
  unfold applyQuery.
  rewrite applyPreload_app, applySearch_app, applyFilters_app, applySorting_app.
  unfold applyPagination, archiveCalls. cbn [app].
  destruct archived; by rewrite <- !app_assoc.
Qed.

Lemma applyQuery_app q reg db opts archived :
  applyQuery q reg db opts archived = db ++ applyQuery q reg [] opts archived.
Proof. by rewrite applyQuery_calls, (applyQuery_calls _ _ []). Qed.

(** ** Pagination *)

Lemma normPage_code page : (if page <? 1 then DefaultPage else page) = normPage page.
Proof. unfold normPage, DefaultPage. destruct (Z.ltb_spec page 1), (decide (page < 1)); lia. Qed.

Lemma normPageSize_code pageSize :
  (let size := if pageSize <? 1 then DefaultPageSize else pageSize in
   if size >? MaxPageSize then MaxPageSize else size) = normPageSize pageSize.
Proof.
  unfold normPageSize, DefaultPageSize, MaxPageSize. cbv zeta.
  destruct (Z.ltb_spec pageSize 1), (decide (pageSize < 1)); try lia.
  - reflexivity.
  - destruct (Z.gtb_spec pageSize 100), (decide (pageSize > 100)); lia.
Qed.

Lemma applyPagination_wrap q db opts :
  applyPagination q db opts
  = db ++ [CallOffset (wrap64 ((normPage (Page opts) - 1) * normPageSize (PageSize opts)));
           CallLimit (normPageSize (PageSize opts))].
Proof.
  unfold applyPagination.
  pose proof (normPageSize_code (PageSize opts)) as Hs. cbv zeta in Hs.
  by rewrite Hs, normPage_code, mul_sub_wrap.
Qed.

Lemma normPage_range page : 1 ≤ normPage page.
Proof. unfold normPage. destruct (decide (page < 1)); lia. Qed.

Lemma normPageSize_range pageSize : 1 ≤ normPageSize pageSize ≤ 100.
Proof.
  unfold normPageSize.
  destruct (decide (pageSize < 1)); [lia|]. destruct (decide (pageSize > 100)); lia.
Qed.

(** C5 (amended): [applyPagination] and [Paginate] normalize a page below 1
    to 1 and keep any other page; they turn a page size below 1 into 20, a
    page size above 100 into 100 and keep any other, so the normalized size
    lies in [1,100].  The applied limit is the normalized size, and the
    applied offset is (normalized page - 1) * normalized size reduced to a
    64-bit integer with wrap-around: it is that product itself whenever the
    product does not exceed 2^63 - 1. *)
Theorem pagination_normalized (q : QueryBuilder) (db : DB) (opts : QueryOptions) :
  let page := normPage (Page opts) in
  let size := normPageSize (PageSize opts) in
  1 ≤ page ∧ 1 ≤ size ≤ 100
  ∧ Paginate (Page opts) (PageSize opts) = (page, size)
  ∧ applyPagination q db opts
    = db ++ [CallOffset (wrap64 ((page - 1) * size)); CallLimit size]
  ∧ ((page - 1) * size ≤ max_int → exactPagination q db opts).
Proof.
  cbv zeta. split; [apply normPage_range|]. split; [apply normPageSize_range|].
  split; [|split].
  - unfold Paginate.
    pose proof (normPageSize_code (PageSize opts)) as Hs. cbv zeta in Hs.
    by rewrite Hs, normPage_code.
  - apply applyPagination_wrap.
  - intros Hfit. unfold exactPagination. rewrite applyPagination_wrap.
    rewrite wrap64_id; [done|].
    pose proof (normPage_range (Page opts)). pose proof (normPageSize_range (PageSize opts)).
    unfold in_range, min_int, max_int in *. nia.
Qed.

(** Page 3 of size 500 (clamped to 100): offset 200, limit 100. *)
Lemma pagination_normalized_witness :
  exactPagination (NewQueryBuilder ∅ "member") [] (Sample.options 3 500 [] [] "" []).
Proof.
  apply (pagination_normalized (NewQueryBuilder ∅ "member") []
           (Sample.options 3 500 [] [] "" [])).
  vm_compute. discriminate.
Defined.

(** C5 as stated fails for a page so large that the product leaves the
    64-bit range: at page 2^63 - 1 and size 100 the applied offset is -200. *)
Lemma pagination_offset_overflow :
  applyPagination (NewQueryBuilder ∅ "member") []
    (Sample.options 9223372036854775807 100 [] [] "" [])
  = [CallOffset (-200); CallLimit 100]
  ∧ ¬ exactPagination (NewQueryBuilder ∅ "member") []
        (Sample.options 9223372036854775807 100 [] [] "" []).
Proof.
  split; [by vm_compute|].
  unfold exactPagination. vm_compute. discriminate.
Qed.

(** ** The response helpers *)

Lemma totalPagesOf_ok total pageSize :
  0 ≤ total ≤ max_int → 1 ≤ pageSize →
  ∃ n, totalPagesOf total pageSize = Ok n ∧ isCeiling n total pageSize
       ∧ n = (total + pageSize - 1) `div` pageSize.
Proof.
  intros Ht Hp. unfold totalPagesOf, quo, rem, bind.
  destruct (Z.eqb_spec pageSize 0) as [|_]; [lia|].
  rewrite Z.quot_div_nonneg, Z.rem_mod_nonneg by lia.
  pose proof (Z.div_mod total pageSize ltac:(lia)) as Hdm.
  pose proof (Z.mod_pos_bound total pageSize ltac:(lia)) as Hm.
  assert (0 ≤ total `div` pageSize) as Hq0 by (apply Z.div_pos; lia).
  assert (total `div` pageSize ≤ total) as Hq1.
  { apply Z.div_le_upper_bound; nia. }
  unfold max_int in Ht.
  rewrite wrap64_id by (unfold in_range, min_int, max_int; lia).
  destruct (Z.gtb_spec (total `mod` pageSize) 0) as [Hr|Hr].
  - assert (total `div` pageSize + 1 ≤ total) by nia.
    eexists. split; [reflexivity|]. unfold add.
    rewrite wrap64_id by (unfold in_range, min_int, max_int; lia).
    split; [unfold isCeiling; nia|].
    apply Z.div_unique with (r := total `mod` pageSize - 1); lia.
  - assert (total `mod` pageSize = 0) as Hz by lia.
    eexists. split; [reflexivity|].
    split; [unfold isCeiling; nia|].
    apply Z.div_unique with (r := pageSize - 1); lia.
Qed.

(** C8: for a total of at least 0 and a page size of at least 1,
    [PaginatedResponse] returns a response whose total_pages is the ceiling
    of total / pageSize; a total of 105 with page size 20 gives 6 pages. *)
Theorem total_pages_is_ceiling {T : Type} (rows : list T) (page : Z) :
  (∀ count pageSize, 0 ≤ count → in_range count → 1 ≤ pageSize →
     ∃ r, PaginatedResponse rows count page pageSize = Ok r
          ∧ data r = rows ∧ total (meta r) = count
          ∧ isCeiling (total_pages (meta r)) count pageSize
          ∧ total_pages (meta r) = (count + pageSize - 1) `div` pageSize)
  ∧ PaginatedResponse rows 105 page 20
    = Ok {| data := rows;
            meta := {| total := 105; page := page; page_size := 20; total_pages := 6 |} |}.
Proof.
  split; [|reflexivity].
  intros count pageSize H0 [_ Hmax] Hp.
  destruct (totalPagesOf_ok count pageSize) as (n & Hn & Hc & Hf); [lia|lia|].
  unfold PaginatedResponse. rewrite Hn. cbn. eexists. split; [reflexivity|]. cbn. done.
Qed.

(** 41 rows in pages of 10: 5 pages. *)
Lemma total_pages_is_ceiling_witness :
  ∃ r, PaginatedResponse [true] 41 1 10 = Ok r
       ∧ data r = [true] ∧ total (meta r) = 41
       ∧ isCeiling (total_pages (meta r)) 41 10
       ∧ total_pages (meta r) = (41 + 10 - 1) `div` 10.
Proof.
  apply (proj1 (total_pages_is_ceiling [true] 1) 41 10).
  - lia.
  - unfold in_range, min_int, max_int. lia.
  - lia.
Defined.

Lemma totalPagesOf_nonzero total pageSize :
  pageSize ≠ 0 → ∃ n, totalPagesOf total pageSize = Ok n.
Proof.
  intros H. unfold totalPagesOf, quo, rem, bind.
  destruct (Z.eqb_spec pageSize 0); [done|]. eauto.
Qed.

(** C3: [PaginatedResponse] and [RespondWithPagination] divide by the page
    size without a guard; with a page size of 0 both stop with the run-time
    panic of an integer division by zero instead of producing a response. *)
Theorem response_helpers_panic_on_zero_page_size
    {T : Type} (rows : list T) (status count page : Z) :
  PaginatedResponse rows count page 0 = Panic "runtime error: integer divide by zero"
  ∧ RespondWithPagination status count page 0
    = Panic "runtime error: integer divide by zero".
Proof. split; reflexivity. Qed.

(** For every other page size the two helpers do produce a response. *)
Lemma response_helpers_total {T : Type} (rows : list T) (status count page pageSize : Z) :
  pageSize ≠ 0 →
  (∃ r, PaginatedResponse rows count page pageSize = Ok r)
  ∧ (∃ m, RespondWithPagination status count page pageSize = Ok m).
Proof.
  intros H. destruct (totalPagesOf_nonzero count pageSize H) as [n Hn].
  unfold PaginatedResponse, RespondWithPagination. rewrite Hn. cbn. eauto.
Qed.

(** C10: [ParseEntityType] ignores its argument and returns "t". *)
Theorem ParseEntityType_constant {A : Type} (entity : A) : ParseEntityType entity = "t".
Proof. reflexivity. Qed.

(** ** Counting *)

(** C2: the query on which [Count] counts is the query of [Build] /
    [BuildArchived] on a fresh session, pagination included: it carries the
    offset and the limit of the requested page, where a count of all
    matching rows would carry neither.  For the second page of the default
    options the counted query has offset 20 and limit 20. *)
Theorem Count_query_is_paginated (exec : DB → Z) (q : QueryBuilder) (reg : Registry)
    (db : DB) (opts : QueryOptions) (archived : bool) :
  Count exec q reg db opts archived
  = wrap64 (exec (applyQuery q reg (db ++ [CallSession]) opts archived))
  ∧ in_range (Count exec q reg db opts archived)
  ∧ CallOffset (wrap64 ((normPage (Page opts) - 1) * normPageSize (PageSize opts)))
    ∈ CountQuery q reg db opts archived
  ∧ CallLimit (normPageSize (PageSize opts)) ∈ CountQuery q reg db opts archived
  ∧ CountQuery (NewQueryBuilder Sample.members "member") Sample.members []
      (Sample.options 2 20 ["name"] ["desc"] "" []) false
    = [CallSession; CallOffset 20; CallLimit 20; CallOrder "name desc";
       CallWhere "deleted_at IS NULL" []].
Proof.
  split; [done|]. split; [apply wrap64_range|]. unfold CountQuery at 1 2.
  rewrite applyQuery_calls, applyPagination_wrap.
  split; [|split].
  - rewrite !elem_of_app. right. left. cbn. rewrite !elem_of_cons. auto.
  - rewrite !elem_of_app. right. left. cbn. rewrite !elem_of_cons. auto.
  - by vm_compute.
Qed.

(** ** The request parser *)

Lemma Split_cons s sep : ∃ p ps, Split s sep = p :: ps.
Proof.
  destruct s as [|c r]; cbn; [eauto|].
  destruct (Ascii.eqb c sep); [eauto|]. destruct (Split r sep); eauto.
Qed.

Lemma Query_absent (c : Values) key : c !! key = None → Query c key = "".
Proof. intros H. unfold Query. by rewrite H. Qed.

Lemma retained_cons valid col rest :
  retained valid (col :: rest)
  = (if valid col then [(0%nat, col)] else [])
    ++ filter (λ p : nat * string, valid p.2 = true) (imap (λ j c, (S j, c)) rest).
Proof.
  unfold retained. rewrite imap_cons, filter_cons. cbn [snd].
  destruct (valid col) eqn:Hv.
  - by rewrite decide_True.
  - by rewrite decide_False.
Qed.

Lemma keepSort_passesCheck reg et col :
  keepSort reg et col = ParsedSort.passesCheck reg et col.
Proof.
  unfold keepSort, ParsedSort.passesCheck, IsValidSortColumn, GetConfig. f_equal.
  destruct (reg !! et) as [cfg|]; [|done].
  destruct (Contains (SortableColumns cfg) col) eqn:Hc; symmetry.
  - apply bool_decide_eq_true. by apply Contains_elem_of.
  - apply bool_decide_eq_false. intros Hin%Contains_elem_of. congruence.
Qed.

Lemma later_columns_ascending (valid : string → bool) (rest : list string) :
  orderClause ["desc"] <$> filter (λ p : nat * string, valid p.2 = true)
                             (imap (λ j c, (S j, c)) rest)
  = ascending <$> filter (λ c, valid c = true) rest.
Proof.
  rewrite <- (retained_columns valid S rest), <- list_fmap_compose.
  apply list_fmap_ext. intros i p Hp.
  apply list_elem_of_lookup_2, list_elem_of_filter in Hp as [_ Hp].
  apply list_elem_of_lookup in Hp as [j Hj]. rewrite list_lookup_imap in Hj.
  destruct (rest !! j) as [c'|]; [|done]. cbn in Hj. by injection Hj as <-.
Qed.

(** C9 (amended): when the query string has no sortOrder parameter, the
    parsed options keep the default SortOrder ["desc"].  So, for a non-empty
    sortBy, the builder orders the first requested column descending if that
    column passes the builder's column check (it is in the SortableColumns of
    the entity, or the entity type name is empty) and drops it otherwise;
    every further requested column that passes the check is ordered
    ascending; with no column left there is no ordering. *)
Theorem sortOrder_defaults_to_desc (c : Values) :
  c !! "sortOrder" = None →
  SortOrder (ParseFromRequest c) = ["desc"]
  ∧ (Query c "sortBy" ≠ "" →
     ∃ col rest,
       Split (Query c "sortBy") "," = col :: rest
       ∧ SortBy (ParseFromRequest c) = col :: rest
       ∧ ∀ q reg db,
           applySorting q reg db (ParseFromRequest c)
           = db ++ ParsedSort.parsedOrder reg (entityType q) col rest).
Proof.
  intros Hno.
  assert (SortOrder (ParseFromRequest c) = ["desc"]) as Hso.
  { unfold ParseFromRequest. cbn [SortOrder]. by rewrite (Query_absent c "sortOrder"). }
  split; [done|]. intros Hby.
  destruct (Split_cons (Query c "sortBy") ",") as (col & rest & Hsplit).
  assert (SortBy (ParseFromRequest c) = col :: rest) as Hsb.
  { unfold ParseFromRequest. cbn [SortBy]. by rewrite eqb_empty_false. }
  exists col, rest. split; [done|]. split; [done|].
  intros q reg db.
  rewrite applySorting_explicit by (by rewrite Hsb).
  rewrite Hsb, Hso. unfold sortingOf, ParsedSort.parsedOrder. f_equal. f_equal.
  rewrite retained_cons, fmap_app, later_columns_ascending.
  rewrite (list_filter_iff (λ c', keepSort reg (entityType q) c' = true)
             (λ c', ParsedSort.passesCheck reg (entityType q) c' = true))
    by (intros c'; by rewrite keepSort_passesCheck).
  rewrite keepSort_passesCheck.
  by destruct (ParsedSort.passesCheck reg (entityType q) col).
Qed.

(** The request [?sortBy=name,email&status=active]. *)
Lemma sortOrder_defaults_to_desc_witness :
  SortOrder (ParseFromRequest Sample.sortOnly) = ["desc"]
  ∧ ∃ col rest,
      Split (Query Sample.sortOnly "sortBy") "," = col :: rest
      ∧ SortBy (ParseFromRequest Sample.sortOnly) = col :: rest
      ∧ ∀ q reg db,
          applySorting q reg db (ParseFromRequest Sample.sortOnly)
          = db ++ ParsedSort.parsedOrder reg (entityType q) col rest.
Proof.
  destruct (sortOrder_defaults_to_desc Sample.sortOnly eq_refl) as [H1 H2].
  split; [exact H1|]. apply H2. vm_compute. discriminate.
Defined.

(** C9 as stated fails when the first requested column is outside the
    whitelist: for [?sortBy=unknownCol,name] on an entity sortable by "name"
    only, the first column is dropped and the one order clause is
    "name asc"; nothing is ordered descending. *)
Lemma first_column_dropped_not_descending :
  applySorting (NewQueryBuilder Sample.members "member") Sample.members []
    (ParseFromRequest ParsedSort.unknownFirst)
  = [CallOrder "name asc"]
  ∧ ¬ ParsedSort.firstColumnDescending ParsedSort.unknownFirst
        (NewQueryBuilder Sample.members "member") Sample.members [].
Proof.
  assert (applySorting (NewQueryBuilder Sample.members "member") Sample.members []
            (ParseFromRequest ParsedSort.unknownFirst)
          = [CallOrder "name asc"]) as Hrun by reflexivity.
  split; [exact Hrun|].
  intros (_ & col & rest & more & Hsb & Happ).
  assert (SortBy (ParseFromRequest ParsedSort.unknownFirst) = ["unknownCol"; "name"])
    as Hparsed by reflexivity.
  rewrite Hparsed in Hsb. injection Hsb as <- <-.
  rewrite Hrun in Happ. cbn [app] in Happ. injection Happ as Happ.
  destruct more; discriminate Happ.
Qed.

(** ** Sorting of requested columns *)

Lemma keepSort_named reg et col :
  et ≠ "" → keepSort reg et col = IsValidSortColumn reg et col.
Proof. intros H. unfold keepSort. by rewrite eqb_empty_false. Qed.

Lemma keepSearch_named reg et col :
  et ≠ "" → keepSearch reg et col = IsValidSearchColumn reg et col.
Proof. intros H. unfold keepSearch. by rewrite eqb_empty_false. Qed.

Lemma sortingOf_ext (v1 v2 : string → bool) sortBy sortOrder :
  (∀ c, v1 c = v2 c) → sortingOf v1 sortBy sortOrder = sortingOf v2 sortBy sortOrder.
Proof.
  intros H. unfold sortingOf, retained. do 2 f_equal.
  apply list_filter_iff. intros p. by rewrite H.
Qed.

Lemma searchOf_ext (v1 v2 : string → bool) cfg opts :
  (∀ c, v1 c = v2 c) → searchOf v1 cfg opts = searchOf v2 cfg opts.
Proof.
  intros H. unfold searchOf. f_equal.
  apply list_filter_iff. intros c. by rewrite H.
Qed.

(** C6 (amended): for every entity type with a non-empty name and every
    QueryOptions with non-empty SortBy, a requested column is skipped unless
    [IsValidSortColumn] accepts it; a retained column takes the direction of
    the SortOrder entry at its own position, descending for "desc" in any
    letter case and ascending for any other or missing entry; with no column
    retained no ordering is applied.  SortBy ["name"; "unknownCol"] with
    SortOrder ["desc"] on an entity that whitelists "name" and not
    "unknownCol" gives the single order clause "name desc". *)
Theorem sorting_of_requested_columns (reg : Registry) (et : string) :
  et ≠ "" →
  (∀ db opts, SortBy opts ≠ [] → sortingAsStated reg et db opts)
  ∧ (IsValidSortColumn reg et "name" = true →
     IsValidSortColumn reg et "unknownCol" = false →
     ∀ db opts, SortBy opts = ["name"; "unknownCol"] → SortOrder opts = ["desc"] →
       applySorting (NewQueryBuilder reg et) reg db opts = db ++ [CallOrder "name desc"]).
Proof.
  intros Het.
  assert (∀ db opts, SortBy opts ≠ [] → sortingAsStated reg et db opts) as Hgen.
  { intros db opts Hs. unfold sortingAsStated.
    rewrite applySorting_explicit by done. cbn [entityType NewQueryBuilder].
    f_equal. apply sortingOf_ext. intros c. by apply keepSort_named. }
  split; [exact Hgen|].
  intros Hname Hunk db opts Hby Hord.
  rewrite Hgen by (by rewrite Hby). rewrite Hby, Hord.
  unfold sortingOf. rewrite retained_cons, Hname. cbn [imap app].
  rewrite filter_cons. cbn [snd compose]. rewrite Hunk, decide_False by done.
  reflexivity.
Qed.

(** The entity "member", sortable by "name" only. *)
Lemma sorting_of_requested_columns_witness :
  applySorting (NewQueryBuilder Sample.members "member") Sample.members []
    (Sample.options 1 20 ["name"; "unknownCol"] ["desc"] "" [])
  = [] ++ [CallOrder "name desc"].
Proof.
  apply (proj2 (sorting_of_requested_columns Sample.members "member" ltac:(discriminate))
           eq_refl eq_refl []
           (Sample.options 1 20 ["name"; "unknownCol"] ["desc"] "" []) eq_refl eq_refl).
Defined.

(** C6 as stated fails for the empty entity type name: the builder makes no
    whitelist check there and keeps a column [IsValidSortColumn] rejects. *)
Lemma sorting_unchecked_for_empty_entity_type :
  IsValidSortColumn Sample.members "" "unknownCol" = false
  ∧ applySorting (NewQueryBuilder Sample.members "") Sample.members []
      (Sample.options 1 20 ["unknownCol"] [] "" [])
    = [CallOrder "unknownCol asc"]
  ∧ ¬ sortingAsStated Sample.members "" [] (Sample.options 1 20 ["unknownCol"] [] "" []).
Proof.
  split; [reflexivity|]. split; [reflexivity|].
  unfold sortingAsStated. vm_compute. discriminate.
Qed.

(** ** Searching *)

(** C7 (amended): for every entity type with a non-empty name and every
    QueryOptions with non-empty Search, the candidates are SearchColumns if
    non-empty and else the configured SearchableColumns; a candidate
    [IsValidSearchColumn] rejects is dropped; the survivors give one
    "column ILIKE ?" condition each, bound to the term wrapped in "%"; the
    conditions are joined with OR inside one parenthesised Where call; with
    no survivor the query is left as it was.  Search "john" in
    ["email"; "phone"] on an entity that whitelists "email" only gives the
    one group "(email ILIKE ?)". *)
Theorem search_over_whitelisted_columns (reg : Registry) (et : string) :
  et ≠ "" →
  (∀ db opts, Search opts ≠ "" → searchAsStated reg et db opts)
  ∧ (IsValidSearchColumn reg et "email" = true →
     IsValidSearchColumn reg et "phone" = false →
     ∀ db opts, Search opts = "john" → SearchColumns opts = ["email"; "phone"] →
       applySearch (NewQueryBuilder reg et) reg db opts
       = db ++ [CallWhere "(email ILIKE ?)" [SString "%john%"]]).
Proof.
  intros Het.
  assert (∀ db opts, Search opts ≠ "" → searchAsStated reg et db opts) as Hgen.
  { intros db opts Hs. unfold searchAsStated.
    rewrite applySearch_searchOf by done. cbn [entityType config NewQueryBuilder].
    f_equal. apply searchOf_ext. intros c. by apply keepSearch_named. }
  split; [exact Hgen|].
  intros Hemail Hphone db opts Hterm Hcols.
  rewrite Hgen by (by rewrite Hterm). unfold searchOf.
  rewrite Hterm, Hcols. cbn [candidates].
  rewrite filter_cons, decide_True by done.
  rewrite filter_cons, decide_False by (by rewrite Hphone).
  reflexivity.
Qed.

(** The entity "member", searchable by "email" only. *)
Lemma search_over_whitelisted_columns_witness :
  applySearch (NewQueryBuilder Sample.members "member") Sample.members []
    (Sample.options 1 20 [] [] "john" ["email"; "phone"])
  = [] ++ [CallWhere "(email ILIKE ?)" [SString "%john%"]].
Proof.
  apply (proj2 (search_over_whitelisted_columns Sample.members "member" ltac:(discriminate))
           eq_refl eq_refl []
           (Sample.options 1 20 [] [] "john" ["email"; "phone"]) eq_refl eq_refl).
Defined.

(** C7 as stated fails for the empty entity type name: a column
    [IsValidSearchColumn] rejects is searched all the same. *)
Lemma search_unchecked_for_empty_entity_type :
  IsValidSearchColumn Sample.members "" "phone" = false
  ∧ applySearch (NewQueryBuilder Sample.members "") Sample.members []
      (Sample.options 1 20 [] [] "john" ["phone"])
    = [CallWhere "(phone ILIKE ?)" [SString "%john%"]]
  ∧ ¬ searchAsStated Sample.members "" [] (Sample.options 1 20 [] [] "john" ["phone"]).
Proof.
  split; [reflexivity|]. split; [reflexivity|].
  unfold searchAsStated. vm_compute. discriminate.
Qed.

(** ** Default sorting *)

Lemma defaultKept_filter reg et cfg :
  GetConfig reg et = Some cfg →
  filter (λ c, keepSort reg et c = true) (DefaultSort cfg) = defaultKept et cfg.
Proof.
  intros Hc. unfold defaultKept. apply list_filter_iff. intros c.
  unfold keepSort, IsValidSortColumn. rewrite Hc.
  rewrite orb_true_iff, String.eqb_eq, Contains_elem_of. done.
Qed.

(** C4 (amended): with empty SortBy, an entity whose registered
    configuration has a non-empty DefaultSort is ordered, ascending, by the
    DefaultSort columns that are in its SortableColumns (by all of them when
    the entity type name is empty), with no ordering when none is left; an
    entity without configuration, or with an empty DefaultSort, is ordered
    by the hard-coded "created_at desc". *)
Theorem default_sorting (reg : Registry) (et : string) (db : DB) (opts : QueryOptions) :
  SortBy opts = [] → defaultSortAmended reg et db opts.
Proof.
  intros Hs. unfold defaultSortAmended.
  destruct (GetConfig reg et) as [cfg|] eqn:Hc.
  - destruct (DefaultSort cfg) as [|d ds] eqn:Hd.
    + apply applySorting_fallback; [done|]. right. exists cfg. done.
    + rewrite (applySorting_default _ _ _ _ cfg); [|done|done|by rewrite Hd].
      cbn [entityType NewQueryBuilder]. by rewrite defaultKept_filter.
  - apply applySorting_fallback; [done|]. by left.
Qed.

(** The entity "member" with DefaultSort ["name"]. *)
Lemma default_sorting_witness :
  defaultSortAmended Sample.members "member" [] (Sample.options 1 20 [] [] "" []).
Proof.
  apply (default_sorting Sample.members "member" [] (Sample.options 1 20 [] [] "" [])).
  reflexivity.
Defined.

(** C4 as stated fails twice: a DefaultSort column outside SortableColumns is
    not ordered by, and a configuration with an empty DefaultSort gets the
    hard-coded order although the entity is configured. *)
Lemma configured_default_not_as_stated :
  (applySorting (NewQueryBuilder Sample.unsortableDefault "member")
     Sample.unsortableDefault [] (Sample.options 1 20 [] [] "" []) = []
   ∧ ¬ defaultSortAsStated Sample.unsortableDefault "member" []
         (Sample.options 1 20 [] [] "" []))
  ∧ (applySorting (NewQueryBuilder Sample.noDefault "member")
       Sample.noDefault [] (Sample.options 1 20 [] [] "" [])
     = [CallOrder "created_at desc"]
     ∧ ¬ defaultSortAsStated Sample.noDefault "member" []
           (Sample.options 1 20 [] [] "" [])).
Proof.
  split; (split; [reflexivity|]); unfold defaultSortAsStated; vm_compute; discriminate.
Qed.

(** ** The whitelist invariant *)

Lemma order_in_orderCalls value clauses :
  CallOrder value ∈ orderCalls clauses → value = Join clauses ", ".
Proof.
  unfold orderCalls. destruct clauses as [|c cs].
  - by intros ?%elem_of_nil.
  - by intros [= ->]%list_elem_of_singleton.
Qed.

Lemma direction_cases entry : direction entry = "asc" ∨ direction entry = "desc".
Proof. unfold direction. destruct entry as [o|]; [destruct (isDescFold o)|]; auto. Qed.

Lemma order_in_query q reg opts archived value :
  CallOrder value ∈ applyQuery q reg [] opts archived →
  CallOrder value ∈ applySorting q reg [] opts.
Proof.
  rewrite applyQuery_calls, applyPagination_wrap. cbn [app].
  rewrite !elem_of_cons, !elem_of_app.
  intros [H|[H|[H|[H|[H|[H|H]]]]]]; try done.
  - unfold applyFilters in H. destruct (0 <? size (Filters opts))%nat.
    + by apply list_elem_of_singleton in H.
    + by apply elem_of_nil in H.
  - destruct (String.eqb_spec (Search opts) "") as [Hs|Hs].
    + rewrite applySearch_empty in H by done. by apply elem_of_nil in H.
    + rewrite applySearch_searchOf in H by done. cbn [app] in H.
      unfold searchOf, searchCalls in H. destruct (filter _ _).
      * by apply elem_of_nil in H.
      * by apply list_elem_of_singleton in H.
  - by apply list_elem_of_fmap in H as (? & ? & _).
  - unfold archiveCalls in H.
    destruct archived; repeat (apply elem_of_cons in H as [H|H]; [discriminate H|]);
      by apply elem_of_nil in H.
Qed.

Lemma where_in_query q reg opts archived query args :
  CallWhere query args ∈ applyQuery q reg [] opts archived →
  CallWhere query args ∈ applySearch q reg [] opts ∨ isArchiveCondition query.
Proof.
  rewrite applyQuery_calls, applyPagination_wrap. cbn [app].
  rewrite !elem_of_cons, !elem_of_app.
  intros [H|[H|[H|[H|[H|[H|H]]]]]]; try done; [| |by left| |].
  - exfalso. unfold applySorting, applyOrder in H.
    repeat match type of H with
           | context [if ?b then _ else _] => destruct b
           | context [match ?o with Some _ => _ | None => _ end] => destruct o
           end; cbn [app] in H;
      by (apply list_elem_of_singleton in H || apply elem_of_nil in H).
  - exfalso. unfold applyFilters in H. destruct (0 <? size (Filters opts))%nat.
    + by apply list_elem_of_singleton in H.
    + by apply elem_of_nil in H.
  - by apply list_elem_of_fmap in H as (? & ? & _).
  - right. unfold isArchiveCondition.
    destruct archived; cbn in H; rewrite ?elem_of_cons in H.
    + destruct H as [H|[H|H]]; [done| |by apply elem_of_nil in H].
      injection H as -> _. by right.
    + destruct H as [H|H]; [|by apply elem_of_nil in H].
      injection H as -> _. by left.
Qed.

Lemma sorting_within reg et opts value :
  et ≠ "" →
  CallOrder value ∈ applySorting (NewQueryBuilder reg et) reg [] opts →
  (value = "created_at desc" ∧ usesFallback reg et opts)
  ∨ orderWithin (sortable reg et) value.
Proof.
  intros Het H.
  destruct (SortBy opts) as [|c cs] eqn:Hs.
  - destruct (GetConfig reg et) as [cfg|] eqn:Hc.
    + destruct (DefaultSort cfg) as [|d ds] eqn:Hd.
      * rewrite applySorting_fallback in H; [|done|right; by exists cfg].
        apply list_elem_of_singleton in H as [= ->]. left. split; [done|].
        split; [done|]. right. by exists cfg.
      * rewrite (applySorting_default _ _ _ _ cfg) in H; [|done|done|by rewrite Hd].
        cbn [app entityType NewQueryBuilder] in H.
        apply order_in_orderCalls in H as ->. right.
        exists ((λ c, (c, "asc")) <$> filter (λ c, keepSort reg et c = true) (DefaultSort cfg)).
        split.
        -- by rewrite <- list_fmap_compose.
        -- intros p (c0 & -> & Hin)%list_elem_of_fmap.
           apply list_elem_of_filter in Hin as [Hk _].
           rewrite keepSort_named in Hk by done.
           split; [by apply IsValidSortColumn_sortable | by left].
    + rewrite applySorting_fallback in H; [|done|by left].
      apply list_elem_of_singleton in H as [= ->]. left. split; [done|].
      split; [done|]. by left.
  - rewrite applySorting_explicit in H by (by rewrite Hs).
    cbn [app entityType NewQueryBuilder] in H.
    apply order_in_orderCalls in H as ->. right.
    exists ((λ p : nat * string, (p.2, direction (SortOrder opts !! p.1)))
              <$> retained (keepSort reg et) (SortBy opts)).
    split.
    + rewrite Hs. by rewrite <- list_fmap_compose.
    + intros p (p0 & -> & Hin)%list_elem_of_fmap.
      apply list_elem_of_filter in Hin as [Hk _].
      rewrite keepSort_named in Hk by done.
      split; [by apply IsValidSortColumn_sortable | apply direction_cases].
Qed.

Lemma search_within reg et opts query args :
  et ≠ "" →
  CallWhere query args ∈ applySearch (NewQueryBuilder reg et) reg [] opts →
  searchWithin (searchable reg et) query.
Proof.
  intros Het H.
  destruct (String.eqb_spec (Search opts) "") as [Hs|Hs].
  - rewrite applySearch_empty in H by done. by apply elem_of_nil in H.
  - rewrite applySearch_searchOf in H by done.
    cbn [app entityType config NewQueryBuilder] in H.
    unfold searchOf, searchCalls in H.
    destruct (filter _ _) as [|s ss] eqn:Hf; [by apply elem_of_nil in H|].
    apply list_elem_of_singleton in H as [= -> _].
    exists (s :: ss). split; [done|].
    intros c Hin. rewrite <- Hf in Hin.
    apply list_elem_of_filter in Hin as [Hk _].
    rewrite keepSearch_named in Hk by done.
    by apply IsValidSearchColumn_searchable.
Qed.

(** C1 (amended): for every entity type with a non-empty name, every
    QueryOptions and both archived flags, every column of an order-by clause
    that Build / BuildArchived assemble from SortBy or from DefaultSort is in
    the entity's SortableColumns, and every column of the search (ILIKE)
    conditions is in its SearchableColumns; a column outside the whitelist
    never reaches the clause.  The one ordering not taken from the whitelist
    is the hard-coded "created_at desc", applied when SortBy is empty and
    the entity has no configuration or an empty DefaultSort. *)
Theorem whitelist_invariant (reg : Registry) (et : string) (opts : QueryOptions)
    (archived : bool) :
  et ≠ "" →
  whitelistAmended reg et opts archived
  ∧ ∀ db, applyQuery (NewQueryBuilder reg et) reg db opts archived
          = db ++ applyQuery (NewQueryBuilder reg et) reg [] opts archived.
Proof.
  intros Het. split; [|intros db; apply applyQuery_app].
  unfold whitelistAmended. cbv zeta. split.
  - intros value H%order_in_query. by apply sorting_within.
  - intros query args [H|H]%where_in_query; [|by left].
    right. by eapply search_within.
Qed.

(** The entity "member" asked to sort by and search in columns outside its
    whitelists. *)
Lemma whitelist_invariant_witness :
  whitelistAmended Sample.members "member"
    (Sample.options 1 20 ["name"; "password"] ["desc"] "john" ["email"; "password"]) false.
Proof.
  apply (whitelist_invariant Sample.members "member"
           (Sample.options 1 20 ["name"; "password"] ["desc"] "john" ["email"; "password"])
           false).
  discriminate.
Defined.

(** C1 as stated fails twice: for the empty entity type name a column
    outside every whitelist is ordered by; and for a configured entity
    without DefaultSort the order clause names "created_at", which is not in
    its SortableColumns ["name"]. *)
Lemma whitelist_not_as_stated :
  ¬ whitelistAsStated Sample.members "" (Sample.options 1 20 ["password"] [] "" []) false
  ∧ ¬ whitelistAsStated Sample.noDefault "member" (Sample.options 1 20 [] [] "" []) false.
Proof.
  split; intros [Hord _]; cbv zeta in Hord.
  - destruct (Hord "password asc") as (cols & Heq & Hall).
    { apply list_elem_of_In. vm_compute. auto 10. }
    destruct cols as [|p cols]; [discriminate Heq|].
    destruct (Hall p) as [(cfg & Hget & _) _]; [left|].
    vm_compute in Hget. discriminate Hget.
  - destruct (Hord "created_at desc") as (cols & Heq & Hall).
    { apply list_elem_of_In. vm_compute. auto 10. }
    destruct cols as [|[c o] cols]; [discriminate Heq|].
    destruct (Hall (c, o)) as [(cfg & Hget & Hin) _]; [left|].
    vm_compute in Hget. injection Hget as <-. cbn in Hin.
    apply list_elem_of_singleton in Hin as ->.
    destruct cols; discriminate Heq.
Qed.

(** ** Worked examples *)

Example build_member_page :
  Build (NewQueryBuilder Sample.members "member") Sample.members []
    (Sample.options 2 500 ["name"; "unknownCol"] ["DESC"] "john" ["email"; "phone"])
  = [CallOffset 100; CallLimit 100; CallOrder "name desc";
     CallWhere "(email ILIKE ?)" [SString "%john%"];
     CallWhere "deleted_at IS NULL" []].
Proof. reflexivity. Qed.

Example build_archived_default :
  BuildArchived (NewQueryBuilder Sample.members "member") Sample.members []
    DefaultQueryOptions
  = [CallOffset 0; CallLimit 20; CallUnscoped; CallWhere "deleted_at IS NOT NULL" []].
Proof. reflexivity. Qed.

Example parse_sort_only :
  SortBy (ParseFromRequest Sample.sortOnly) = ["name"; "email"]
  ∧ map_to_list (Filters (ParseFromRequest Sample.sortOnly)) = [("status", SString "active")]
  ∧ Page (ParseFromRequest Sample.sortOnly) = 1
  ∧ PageSize (ParseFromRequest Sample.sortOnly) = 20.
Proof. repeat split; by vm_compute. Qed.

Example split_keeps_empty_pieces : Split "a,,b," "," = ["a"; ""; "b"; ""].
Proof. reflexivity. Qed.

Example atoi_cases :
  Atoi "-42" = Some (-42) ∧ Atoi "4x" = None ∧ Atoi "" = None ∧ Atoi "+" = None
  ∧ Atoi "9223372036854775808" = None.
Proof. repeat split; by vm_compute. Qed.

(** * Further properties of the package *)

Import Shape.

(** ** The registry *)

Lemma GetConfig_register_ne (reg : Registry) et other cfg :
  other ≠ et → GetConfig (RegisterConfig reg et cfg) other = GetConfig reg other.
Proof. intros H. unfold GetConfig, RegisterConfig. by apply lookup_insert_ne. Qed.

(** X1: a registered configuration is the one [GetConfig] returns for its
    entity type; the configurations of other entity types are untouched; and
    registering again for the same entity type replaces the earlier
    configuration. *)
Theorem register_then_get (reg : Registry) (et : string) (cfg : EntityConfig) :
  GetConfig (RegisterConfig reg et cfg) et = Some cfg
  ∧ (∀ other, other ≠ et → GetConfig (RegisterConfig reg et cfg) other = GetConfig reg other)
  ∧ (∀ earlier, RegisterConfig (RegisterConfig reg et earlier) et cfg
                = RegisterConfig reg et cfg).
Proof.
  split; [apply lookup_insert_eq|]. split.
  - intros other Hne. by apply GetConfig_register_ne.
  - intros earlier. apply insert_insert_eq.
Qed.

Lemma register_then_get_witness :
  GetConfig (RegisterConfig Sample.members "product"
               {| SearchableColumns := []; SortableColumns := ["price"];
                  DefaultSort := []; DefaultIncludes := [] |}) "member"
  = GetConfig Sample.members "member".
Proof.
  apply (register_then_get Sample.members "product"
           {| SearchableColumns := []; SortableColumns := ["price"];
              DefaultSort := []; DefaultIncludes := [] |}).
  discriminate.
Defined.

(** X2: for an entity type without registered configuration both column
    checks reject every column, and registering a configuration for another
    entity type changes neither check. *)
Theorem unregistered_fails_closed (reg : Registry) (et : string) :
  GetConfig reg et = None →
  ∀ col,
    IsValidSortColumn reg et col = false
    ∧ IsValidSearchColumn reg et col = false
    ∧ ∀ other cfg, other ≠ et →
        IsValidSortColumn (RegisterConfig reg other cfg) et col = false
        ∧ IsValidSearchColumn (RegisterConfig reg other cfg) et col = false.
Proof.
  intros Hnone col. unfold IsValidSortColumn, IsValidSearchColumn.
  rewrite Hnone. split; [done|]. split; [done|].
  intros other cfg Hne. rewrite GetConfig_register_ne by done. by rewrite Hnone.
Qed.

Lemma unregistered_fails_closed_witness :
  IsValidSortColumn Sample.members "invoice" "name" = false
  ∧ IsValidSearchColumn Sample.members "invoice" "name" = false
  ∧ ∀ other cfg, other ≠ "invoice" →
      IsValidSortColumn (RegisterConfig Sample.members other cfg) "invoice" "name" = false
      ∧ IsValidSearchColumn (RegisterConfig Sample.members other cfg) "invoice" "name" = false.
Proof. apply (unregistered_fails_closed Sample.members "invoice" eq_refl "name"). Defined.

(** ** Page parameters *)

(** X3: [Paginate] is idempotent, and its result has a page of at least 1
    and a page size between 1 and 100. *)
Theorem Paginate_idempotent (page pageSize : Z) :
  Paginate (Paginate page pageSize).1 (Paginate page pageSize).2 = Paginate page pageSize
  ∧ 1 ≤ (Paginate page pageSize).1
  ∧ 1 ≤ (Paginate page pageSize).2 ≤ 100.
Proof.
  unfold Paginate, DefaultPage, DefaultPageSize, MaxPageSize. cbn [fst snd].
  repeat match goal with
         | |- context [?a <? ?b] => destruct (Z.ltb_spec a b)
         | |- context [?a >? ?b] => destruct (Z.gtb_spec a b)
         end; repeat split; try lia; f_equal; lia.
Qed.

Lemma Atoi_in_range s n : Atoi s = Some n → in_range n.
Proof.
  unfold Atoi. intros H.
  destruct (match s with
            | String "-"%char r => option_map Z.opp (unsigned r)
            | String "+"%char r => unsigned r
            | _ => unsigned s
            end) as [m|]; [|done].
  destruct ((min_int <=? m) && (m <=? max_int)) eqn:Hb; [|done].
  injection H as <-. apply andb_true_iff in Hb as [H1 H2].
  apply Z.leb_le in H1, H2. done.
Qed.

Lemma positiveOr_range s default :
  1 ≤ default → in_range default →
  1 ≤ positiveOr s default ∧ in_range (positiveOr s default).
Proof.
  intros H1 H2. unfold positiveOr. destruct (String.eqb s ""); [done|].
  destruct (Atoi s) as [n|] eqn:Hn; [|done].
  destruct (Z.ltb_spec 0 n); [|done].
  split; [lia|]. by eapply Atoi_in_range.
Qed.

Lemma positiveOr_Atoi s default :
  positiveOr s default
  = match Atoi s with
    | Some n => if n <? 1 then default else n
    | None => default
    end.
Proof.
  unfold positiveOr. destruct (String.eqb_spec s "") as [->|_]; [done|].
  destruct (Atoi s) as [n|]; [|done].
  destruct (Z.ltb_spec 0 n), (Z.ltb_spec n 1); done || lia.
Qed.

(** X4: the standalone page helpers agree with the request parser followed
    by [Paginate]: [GetPageFromRequest] is the parsed page, and
    [GetPageSizeFromRequest] is the parsed page size capped at 100. *)
Theorem page_helpers_agree_with_parser (c : Values) :
  (GetPageFromRequest c, GetPageSizeFromRequest c)
  = Paginate (Page (ParseFromRequest c)) (PageSize (ParseFromRequest c))
  ∧ GetPageFromRequest c = Page (ParseFromRequest c)
  ∧ GetPageSizeFromRequest c = Z.min 100 (PageSize (ParseFromRequest c)).
Proof.
  unfold GetPageFromRequest, GetPageSizeFromRequest, ParseFromRequest, Paginate.
  cbn [Page PageSize DefaultQueryOptions].
  rewrite !positiveOr_Atoi. unfold DefaultPage, DefaultPageSize, MaxPageSize.
  destruct (Atoi (Query c "page")) as [p|], (Atoi (Query c "pageSize")) as [s|];
    repeat match goal with
           | |- context [?a <? ?b] => destruct (Z.ltb_spec a b)
           | |- context [?a >? ?b] => destruct (Z.gtb_spec a b)
           end; repeat split; try lia; f_equal; lia.
Qed.

(** X5: whatever the request, the parsed options have a page and a page size
    of at least 1 within the range of [int]; so the response helpers never
    panic on a parsed page size.  The parser itself does not cap the page
    size at 100. *)
Theorem parsed_page_size_is_safe (c : Values) :
  1 ≤ Page (ParseFromRequest c) ∧ in_range (Page (ParseFromRequest c))
  ∧ 1 ≤ PageSize (ParseFromRequest c) ∧ in_range (PageSize (ParseFromRequest c))
  ∧ (∀ (T : Type) (rows : list T) count page,
       ∃ r, PaginatedResponse rows count page (PageSize (ParseFromRequest c)) = Ok r)
  ∧ (∀ status count page,
       ∃ m, RespondWithPagination status count page (PageSize (ParseFromRequest c)) = Ok m)
  ∧ PageSize (ParseFromRequest oversized) = 500.
Proof.
  assert (in_range 1 ∧ in_range 20) as [R1 R20]
    by (unfold in_range, min_int, max_int; lia).
  destruct (positiveOr_range (Query c "page") 1 ltac:(lia) R1) as [Hp1 Hp2].
  destruct (positiveOr_range (Query c "pageSize") 20 ltac:(lia) R20) as [Hs1 Hs2].
  unfold ParseFromRequest at 1 2 3 4. cbn [Page PageSize DefaultQueryOptions].
  unfold DefaultPage, DefaultPageSize.
  split; [done|]. split; [done|]. split; [done|]. split; [done|].
  assert (PageSize (ParseFromRequest c) ≠ 0) as Hnz.
  { unfold ParseFromRequest. cbn [PageSize DefaultQueryOptions].
    unfold DefaultPageSize. lia. }
  split; [|split].
  - intros T rows count page.
    by destruct (response_helpers_total rows 0 count page _ Hnz) as [H _].
  - intros status count page.
    by destruct (response_helpers_total (@nil unit) status count page _ Hnz) as [_ H].
  - by vm_compute.
Qed.

(** ** Filters of a request *)

Lemma parseFilters_collect (c : Values) :
  parseFilters c DefaultQueryOptions = collectFilters c.
Proof.
  unfold parseFilters. destruct (size (collectFilters c)) as [|n] eqn:Hsize.
  - apply map_size_empty_inv in Hsize. rewrite Hsize. done.
  - done.
Qed.

Lemma collectFilters_lookup (c : Values) key :
  collectFilters c !! key = if reserved key then None else firstValue (c !! key).
Proof.
  unfold collectFilters. rewrite map_lookup_imap.
  destruct (c !! key) as [[|v vs]|]; cbn; by destruct (reserved key).
Qed.

(** X6: the filters of a parsed request hold, for every parameter name other
    than the eight the parser reads itself, the first value of that
    parameter, and nothing else: a reserved name is never a filter, and an
    absent parameter is none either. *)
Theorem parsed_filters (c : Values) (key : string) :
  Filters (ParseFromRequest c) !! key
  = if reserved key then None else firstValue (c !! key).
Proof.
  unfold ParseFromRequest. cbn [Filters].
  by rewrite parseFilters_collect, collectFilters_lookup.
Qed.

Lemma Query_absent_all (c : Values) :
  (∀ key, reserved key = true → c !! key = None) →
  ∀ key, reserved key = true → Query c key = "".
Proof. intros H key Hr. apply Query_absent. by apply H. Qed.

(** X7: a request without any of the eight reserved parameters parses to the
    default options with its parameters as filters; the empty request parses
    to the default options. *)
Theorem parse_without_reserved (c : Values) :
  (∀ key, reserved key = true → c !! key = None) →
  ParseFromRequest c = withFilters (collectFilters c) DefaultQueryOptions
  ∧ ParseFromRequest ∅ = DefaultQueryOptions.
Proof.
  intros H. split; [|by vm_compute].
  pose proof (Query_absent_all c H) as Hq.
  unfold ParseFromRequest, withFilters.
  rewrite parseFilters_collect.
  rewrite (Hq "page"), (Hq "pageSize"), (Hq "sortBy"), (Hq "sortOrder"),
    (Hq "search"), (Hq "searchColumns"), (Hq "preload"), (Hq "includeArchived")
    by reflexivity.
  reflexivity.
Qed.

Lemma parse_without_reserved_witness :
  ParseFromRequest {[ "status" := ["active"] ]}
  = withFilters (collectFilters {[ "status" := ["active"] ]}) DefaultQueryOptions
  ∧ ParseFromRequest ∅ = DefaultQueryOptions.
Proof.
  apply (parse_without_reserved {[ "status" := ["active"] ]}).
  intros key Hr. apply lookup_singleton_None. intros <-. discriminate Hr.
Defined.

(** ** The calls of a built query *)

Lemma applySorting_shape q reg opts : atMostOne isOrderCall (applySorting q reg [] opts).
Proof.
  unfold atMostOne, isOrderCall, applySorting, applyOrder.
  repeat match goal with
         | |- context [if ?b then _ else _] => destruct b
         | |- context [match ?o with Some _ => _ | None => _ end] => destruct o
         end; cbn [app]; eauto.
Qed.

Lemma applyFilters_shape q opts :
  applyFilters q [] opts = (if decide (Filters opts = ∅) then [] else [CallWhereMap (Filters opts)]).
Proof.
  unfold applyFilters. destruct (size (Filters opts)) as [|n] eqn:Hsize.
  - apply map_size_empty_inv in Hsize. by rewrite decide_True.
  - rewrite decide_False; [done|]. intros Hempty. rewrite Hempty in Hsize.
    by rewrite map_size_empty in Hsize.
Qed.

Lemma applySearch_shape q reg opts : atMostOne isSearchCall (applySearch q reg [] opts).
Proof.
  unfold atMostOne, isSearchCall.
  destruct (String.eqb_spec (Search opts) "") as [Hs|Hs].
  - left. by apply applySearch_empty.
  - rewrite applySearch_searchOf by done. cbn [app].
    unfold searchOf, searchCalls. destruct (filter _ _) as [|s ss]; [by left|].
    right. eexists. split; [reflexivity|]. by eexists _, _.
Qed.

(** X8: a built query is, after the calls already on the handle, the offset
    and the limit, at most one order call, at most one filter call (present
    exactly when there are filters), at most one parenthesised search
    condition, one preload call per requested relation in order, and last the
    archive partition; [Build] and [BuildArchived] differ in that last part
    only, and [Unscoped] is called for the archived partition alone. *)
Theorem built_query_shape (q : QueryBuilder) (reg : Registry) (db : DB)
    (opts : QueryOptions) :
  ∃ order search,
    atMostOne isOrderCall order ∧ atMostOne isSearchCall search
    ∧ let body :=
        [CallOffset (wrap64 ((normPage (Page opts) - 1) * normPageSize (PageSize opts)));
         CallLimit (normPageSize (PageSize opts))]
        ++ order
        ++ (if decide (Filters opts = ∅) then [] else [CallWhereMap (Filters opts)])
        ++ search ++ (CallPreload <$> Preload opts) in
      Build q reg db opts = db ++ body ++ [CallWhere "deleted_at IS NULL" []]
      ∧ BuildArchived q reg db opts
        = db ++ body ++ [CallUnscoped; CallWhere "deleted_at IS NOT NULL" []]
      ∧ CallUnscoped ∉ body.
Proof.
  exists (applySorting q reg [] opts), (applySearch q reg [] opts).
  pose proof (applySorting_shape q reg opts) as Ho.
  pose proof (applySearch_shape q reg opts) as Hs.
  split; [done|]. split; [done|]. cbv zeta.
  unfold Build, BuildArchived.
  rewrite !applyQuery_calls, applyPagination_wrap, applyFilters_shape.
  cbn [archiveCalls app]. rewrite <- !app_assoc. cbn [app].
  split; [done|]. split; [done|].
  rewrite !not_elem_of_cons, !not_elem_of_app. split; [done|]. split; [done|].
  split; [|split; [|split]].
  - destruct Ho as [->|(c & -> & v & ->)].
    + apply not_elem_of_nil.
    + rewrite not_elem_of_cons. split; [done|apply not_elem_of_nil].
  - destruct (decide (Filters opts = ∅)).
    + apply not_elem_of_nil.
    + rewrite not_elem_of_cons. split; [done|apply not_elem_of_nil].
  - destruct Hs as [->|(c & -> & s & a & ->)].
    + apply not_elem_of_nil.
    + rewrite not_elem_of_cons. split; [done|apply not_elem_of_nil].
  - by intros (name & ? & _)%list_elem_of_fmap.
Qed.

Lemma omap_preloadName_fmap (names : list string) : omap preloadName (CallPreload <$> names) = names.
Proof. induction names as [|n ns IH]; [done|]. cbn. by rewrite IH. Qed.

Lemma omap_filterMap_fmap (names : list string) : omap filterMap (CallPreload <$> names) = [].
Proof. induction names as [|n ns IH]; [done|]. cbn. by rewrite IH. Qed.

(** X9: the relations a built query eager loads are exactly the entries of
    Preload, in their order and with repetitions; no entry is checked against
    DefaultIncludes or any other list. *)
Theorem preload_is_unchecked (q : QueryBuilder) (reg : Registry) (opts : QueryOptions)
    (archived : bool) :
  omap preloadName (applyQuery q reg [] opts archived) = Preload opts.
Proof.
  rewrite applyQuery_calls, applyPagination_wrap, applyFilters_shape.
  rewrite !omap_app, omap_preloadName_fmap.
  destruct (applySorting_shape q reg opts) as [->|(c & -> & v & ->)];
    destruct (applySearch_shape q reg opts) as [->|(c' & -> & s & a & ->)];
    destruct (decide (Filters opts = ∅)); destruct archived; cbn;
    by rewrite app_nil_r.
Qed.

(** X10: a built query carries the Filters map as its one equality
    condition whenever the map is not empty, whatever its keys are: filter
    keys are not checked against the configuration. *)
Theorem filters_are_unchecked (q : QueryBuilder) (reg : Registry) (opts : QueryOptions)
    (archived : bool) :
  omap filterMap (applyQuery q reg [] opts archived)
  = if decide (Filters opts = ∅) then [] else [Filters opts].
Proof.
  rewrite applyQuery_calls, applyPagination_wrap, applyFilters_shape.
  rewrite !omap_app, omap_filterMap_fmap.
  destruct (applySorting_shape q reg opts) as [->|(c & -> & v & ->)];
    destruct (applySearch_shape q reg opts) as [->|(c' & -> & s & a & ->)];
    destruct (decide (Filters opts = ∅)); destruct archived; reflexivity.
Qed.

(** ** Column checks in special situations *)

Lemma filter_all {A} (P : A → Prop) `{!∀ x, Decision (P x)} (l : list A) :
  (∀ x, P x) → filter P l = l.
Proof.
  intros Hall. induction l as [|x l IH]; [done|].
  by rewrite filter_cons_True, IH.
Qed.

Lemma filter_none {A} (P : A → Prop) `{!∀ x, Decision (P x)} (l : list A) :
  (∀ x, ¬ P x) → filter P l = [].
Proof.
  intros Hnone. induction l as [|x l IH]; [done|].
  by rewrite filter_cons_False, IH.
Qed.

Lemma sortingOf_unchecked (valid : string → bool) sortBy sortOrder :
  (∀ c, valid c = true) → sortingOf valid sortBy sortOrder = uncheckedOrder sortBy sortOrder.
Proof.
  intros H. unfold sortingOf, uncheckedOrder, retained.
  rewrite filter_all by (intros p; apply H). by rewrite fmap_imap.
Qed.

Lemma sortingOf_rejected (valid : string → bool) sortBy sortOrder :
  (∀ c, valid c = false) → sortingOf valid sortBy sortOrder = [].
Proof.
  intros H. unfold sortingOf, retained.
  rewrite filter_none; [done|]. intros p. by rewrite H.
Qed.

(** X11: a builder for the empty entity type name makes no whitelist check:
    it orders by every requested column, and it searches every candidate
    column. *)
Theorem empty_entity_type_is_unchecked (q : QueryBuilder) (reg : Registry) (db : DB)
    (opts : QueryOptions) :
  entityType q = "" →
  (SortBy opts ≠ [] →
   applySorting q reg db opts = db ++ uncheckedOrder (SortBy opts) (SortOrder opts))
  ∧ (Search opts ≠ "" →
     applySearch q reg db opts
     = db ++ searchCalls (Search opts) (candidates (config q) (SearchColumns opts))).
Proof.
  intros Het. split.
  - intros Hs. rewrite applySorting_explicit by done. f_equal.
    apply sortingOf_unchecked. intros c. unfold keepSort. by rewrite Het.
  - intros Hs. rewrite applySearch_searchOf by done. f_equal. unfold searchOf.
    rewrite filter_all; [done|]. intros c. unfold keepSearch. by rewrite Het.
Qed.

Lemma empty_entity_type_is_unchecked_witness :
  applySorting (NewQueryBuilder Sample.members "") Sample.members []
    (Sample.options 1 20 ["a"; "b"] ["desc"] "" [])
  = [] ++ uncheckedOrder ["a"; "b"] ["desc"].
Proof.
  apply (empty_entity_type_is_unchecked (NewQueryBuilder Sample.members "") Sample.members []
           (Sample.options 1 20 ["a"; "b"] ["desc"] "" []) eq_refl).
  discriminate.
Defined.

(** X12: for an entity type with a non-empty name and no registered
    configuration, requested sort columns give no ordering at all, a search
    adds no condition, and only an empty SortBy gives an ordering, the
    hard-coded "created_at desc". *)
Theorem unregistered_entity_queries (reg : Registry) (et : string) (db : DB)
    (opts : QueryOptions) :
  et ≠ "" → GetConfig reg et = None →
  applySearch (NewQueryBuilder reg et) reg db opts = db
  ∧ (SortBy opts ≠ [] → applySorting (NewQueryBuilder reg et) reg db opts = db)
  ∧ (SortBy opts = [] →
     applySorting (NewQueryBuilder reg et) reg db opts = db ++ [CallOrder "created_at desc"]).
Proof.
  intros Het Hnone.
  assert (∀ c, IsValidSortColumn reg et c = false) as Hsort.
  { intros c. unfold IsValidSortColumn. by rewrite Hnone. }
  assert (∀ c, IsValidSearchColumn reg et c = false) as Hsearch.
  { intros c. unfold IsValidSearchColumn. by rewrite Hnone. }
  split; [|split].
  - destruct (String.eqb_spec (Search opts) "") as [Hs|Hs].
    + by apply applySearch_empty.
    + rewrite applySearch_searchOf by done. cbn [entityType config NewQueryBuilder].
      unfold searchOf. rewrite filter_none; [by rewrite app_nil_r|].
      intros c. rewrite keepSearch_named, Hsearch by done. done.
  - intros Hs. rewrite applySorting_explicit by done. cbn [entityType NewQueryBuilder].
    rewrite sortingOf_rejected; [by rewrite app_nil_r|].
    intros c. by rewrite keepSort_named, Hsort.
  - intros Hs. apply applySorting_fallback; [done|]. by left.
Qed.

Lemma unregistered_entity_queries_witness :
  applySearch (NewQueryBuilder Sample.members "invoice") Sample.members []
    (Sample.options 1 20 ["name"] [] "john" ["email"]) = []
  ∧ (SortBy (Sample.options 1 20 ["name"] [] "john" ["email"]) ≠ [] →
     applySorting (NewQueryBuilder Sample.members "invoice") Sample.members []
       (Sample.options 1 20 ["name"] [] "john" ["email"]) = [])
  ∧ (SortBy (Sample.options 1 20 ["name"] [] "john" ["email"]) = [] →
     applySorting (NewQueryBuilder Sample.members "invoice") Sample.members []
       (Sample.options 1 20 ["name"] [] "john" ["email"])
     = [] ++ [CallOrder "created_at desc"]).
Proof.
  apply (unregistered_entity_queries Sample.members "invoice" []
           (Sample.options 1 20 ["name"] [] "john" ["email"])).
  - discriminate.
  - reflexivity.
Defined.

(** X13: the options parsed from a request always have a non-empty SortBy
    (the default ["created_at"] when the request names none), so a builder
    given parsed options never uses the entity's DefaultSort nor the
    hard-coded fallback: it orders by the parsed columns that pass its
    check. *)
Theorem parsed_options_never_use_default_sort (c : Values) :
  SortBy (ParseFromRequest c) ≠ []
  ∧ (Query c "sortBy" = "" → SortBy (ParseFromRequest c) = ["created_at"])
  ∧ ∀ q reg db,
      applySorting q reg db (ParseFromRequest c)
      = db ++ sortingOf (keepSort reg (entityType q))
                (SortBy (ParseFromRequest c)) (SortOrder (ParseFromRequest c)).
Proof.
  assert (SortBy (ParseFromRequest c) ≠ []) as Hne.
  { unfold ParseFromRequest. cbn [SortBy DefaultQueryOptions].
    destruct (String.eqb (Query c "sortBy") ""); [done|].
    by destruct (Split_cons (Query c "sortBy") ",") as (p & ps & ->). }
  split; [done|]. split.
  - intros H. unfold ParseFromRequest. cbn [SortBy DefaultQueryOptions]. by rewrite H.
  - intros q reg db. by apply applySorting_explicit.
Qed.

Lemma parsed_options_never_use_default_sort_witness :
  SortBy (ParseFromRequest Shape.oversized) = ["created_at"].
Proof.
  apply (parsed_options_never_use_default_sort Shape.oversized). reflexivity.
Defined.

(** ** The response metadata *)

(** X14: for a total of at least 0 and a page size of at least 1,
    [RespondWithPagination] returns, whatever the status, the metadata with
    total_pages the ceiling of total / pageSize, which is 0 exactly for a
    total of 0; [PaginatedResponse] returns the same metadata beside its
    rows. *)
Theorem RespondWithPagination_metadata (status count pg pageSize : Z) :
  0 ≤ count → in_range count → 1 ≤ pageSize →
  ∃ m, RespondWithPagination status count pg pageSize = Ok m
       ∧ total m = count ∧ page m = pg ∧ page_size m = pageSize
       ∧ isCeiling (total_pages m) count pageSize
       ∧ (total_pages m = 0 ↔ count = 0)
       ∧ ∀ (T : Type) (rows : list T),
           PaginatedResponse rows count pg pageSize = Ok {| data := rows; meta := m |}.
Proof.
  intros H0 [_ Hmax] Hp.
  destruct (totalPagesOf_ok count pageSize) as (n & Hn & Hc & _); [lia|lia|].
  unfold RespondWithPagination, PaginatedResponse. rewrite Hn. cbn [bind].
  eexists. split; [reflexivity|]. cbn [total page page_size total_pages].
  repeat split; try done; unfold isCeiling in Hc; nia.
Qed.

Lemma RespondWithPagination_metadata_witness :
  ∃ m, RespondWithPagination 200 0 1 20 = Ok m
       ∧ total m = 0 ∧ page m = 1 ∧ page_size m = 20
       ∧ isCeiling (total_pages m) 0 20
       ∧ (total_pages m = 0 ↔ 0 = 0)
       ∧ ∀ (T : Type) (rows : list T),
           PaginatedResponse rows 0 1 20 = Ok {| data := rows; meta := m |}.
Proof.
  apply (RespondWithPagination_metadata 200 0 1 20).
  - lia.
  - unfold in_range, min_int, max_int. lia.
  - lia.
Defined.

(** ** What the builder does not read, and what it remembers *)

(** X15: the builder never reads IncludeArchived: the built query and the
    counted query are the same for either value of the flag, and the
    partition is chosen by the entry point alone. *)
Theorem IncludeArchived_is_ignored (q : QueryBuilder) (reg : Registry) (db : DB)
    (opts : QueryOptions) (b : bool) :
  Build q reg db (withIncludeArchived b opts) = Build q reg db opts
  ∧ BuildArchived q reg db (withIncludeArchived b opts) = BuildArchived q reg db opts
  ∧ (∀ archived, CountQuery q reg db (withIncludeArchived b opts) archived
                 = CountQuery q reg db opts archived)
  ∧ CallWhere "deleted_at IS NULL" [] ∈ Build q reg db (withIncludeArchived true opts).
Proof.
  split; [reflexivity|]. split; [reflexivity|]. split; [reflexivity|].
  unfold Build. rewrite applyQuery_calls. cbn [archiveCalls].
  rewrite !elem_of_app. do 6 right. apply list_elem_of_singleton. done.
Qed.

(** X16: a builder keeps the configuration that was registered when it was
    made.  If the entity type is registered only afterwards, the builder
    still falls back to "created_at desc" for an empty SortBy and still has
    no configured search candidates, while requested sort columns are
    checked against the registry as it is when the query is built. *)
Theorem builder_keeps_its_snapshot (reg : Registry) (et : string) (cfg : EntityConfig)
    (db : DB) (opts : QueryOptions) :
  et ≠ "" → GetConfig reg et = None →
  config (NewQueryBuilder reg et) = None
  ∧ (SortBy opts = [] →
     applySorting (NewQueryBuilder reg et) (RegisterConfig reg et cfg) db opts
     = db ++ [CallOrder "created_at desc"])
  ∧ (SearchColumns opts = [] →
     applySearch (NewQueryBuilder reg et) (RegisterConfig reg et cfg) db opts = db)
  ∧ (SortBy opts ≠ [] →
     applySorting (NewQueryBuilder reg et) (RegisterConfig reg et cfg) db opts
     = db ++ sortingOf (λ col, Contains (SortableColumns cfg) col)
               (SortBy opts) (SortOrder opts)).
Proof.
  intros Het Hnone. split; [done|]. split; [|split].
  - intros Hs. apply applySorting_fallback; [done|]. by left.
  - intros Hc. destruct (String.eqb_spec (Search opts) "") as [Hs|Hs].
    + by apply applySearch_empty.
    + rewrite applySearch_searchOf by done. unfold searchOf, candidates.
      cbn [config NewQueryBuilder]. rewrite Hc, Hnone. cbn. by rewrite app_nil_r.
  - intros Hs. rewrite applySorting_explicit by done. f_equal.
    apply sortingOf_ext. intros c. cbn [entityType NewQueryBuilder].
    rewrite keepSort_named by done. unfold IsValidSortColumn.
    unfold GetConfig, RegisterConfig. by rewrite lookup_insert_eq.
Qed.

Lemma builder_keeps_its_snapshot_witness :
  applySorting (NewQueryBuilder ∅ "member") Sample.members []
    (Sample.options 1 20 [] [] "" [])
  = [] ++ [CallOrder "created_at desc"].
Proof.
  apply (builder_keeps_its_snapshot ∅ "member"
           {| SearchableColumns := ["email"]; SortableColumns := ["name"];
              DefaultSort := ["name"]; DefaultIncludes := [] |} []
           (Sample.options 1 20 [] [] "" [])).
  - discriminate.
  - reflexivity.
  - reflexivity.
Defined.

(** X17: without a search term, or without any candidate column (none
    requested and none configured), the search step adds nothing, so the
    only Where condition on a string in the built query is the one of the
    archive partition. *)
Theorem no_search_without_term_or_columns (q : QueryBuilder) (reg : Registry)
    (opts : QueryOptions) (archived : bool) :
  Search opts = "" ∨ candidates (config q) (SearchColumns opts) = [] →
  ∀ db, applySearch q reg db opts = db
  ∧ ∀ query args, CallWhere query args ∈ applyQuery q reg [] opts archived →
      args = [] ∧ isArchiveCondition query.
Proof.
  intros Hcase.
  assert (∀ db, applySearch q reg db opts = db) as Hnop.
  { intros db. destruct (String.eqb_spec (Search opts) "") as [Hs|Hs].
    - by apply applySearch_empty.
    - destruct Hcase as [?|Hc]; [done|].
      rewrite applySearch_searchOf by done. unfold searchOf. rewrite Hc.
      cbn. by rewrite app_nil_r. }
  intros db. split; [apply Hnop|].
  intros query args. rewrite applyQuery_calls, applyPagination_wrap, applyFilters_shape.
  cbn [app]. rewrite !elem_of_cons, !elem_of_app.
  intros [H|[H|[H|[H|[H|[H|H]]]]]]; try done.
  - destruct (applySorting_shape q reg opts) as [Ho|(c & Ho & v & ->)];
      rewrite Ho in H; [by apply elem_of_nil in H|].
    by apply list_elem_of_singleton in H.
  - destruct (decide (Filters opts = ∅)); [by apply elem_of_nil in H|].
    by apply list_elem_of_singleton in H.
  - rewrite (Hnop []) in H. by apply elem_of_nil in H.
  - by apply list_elem_of_fmap in H as (? & ? & _).
  - unfold archiveCalls, isArchiveCondition in *. destruct archived.
    + apply elem_of_cons in H as [H|H]; [done|].
      apply list_elem_of_singleton in H as [= -> ->]. auto.
    + apply list_elem_of_singleton in H as [= -> ->]. auto.
Qed.

Lemma no_search_without_term_or_columns_witness :
  applySearch (NewQueryBuilder Sample.members "member") Sample.members []
    (Sample.options 1 20 [] [] "" ["email"]) = [].
Proof.
  apply (no_search_without_term_or_columns (NewQueryBuilder Sample.members "member")
           Sample.members (Sample.options 1 20 [] [] "" ["email"]) false).
  by left.
Defined.

(** ** Comma-separated parameters *)

Lemma concat_cons_cons sep (x y : string) l :
  String.concat sep (x :: y :: l) = x +:+ sep +:+ String.concat sep (y :: l).
Proof. reflexivity. Qed.

Lemma Join_Split s sep : Join (Split s sep) (String sep EmptyString) = s.
Proof.
  unfold Join. induction s as [|c r IH]; [done|].
  cbn [Split]. destruct (Split_cons r sep) as (p & ps & Hr). rewrite Hr in *.
  destruct (Ascii.eqb_spec c sep) as [->|Hne].
  - by rewrite concat_cons_cons, IH.
  - destruct ps as [|y l].
    + cbn in *. by rewrite IH.
    + rewrite concat_cons_cons in *. by rewrite <- IH.
Qed.

Lemma Split_pieces s sep piece : piece ∈ Split s sep → hasByte sep piece = false.
Proof.
  revert piece. induction s as [|c r IH]; intros piece.
  - cbn. by intros ->%list_elem_of_singleton.
  - cbn [Split]. destruct (Split_cons r sep) as (p & ps & Hr). rewrite Hr in *.
    destruct (Ascii.eqb_spec c sep) as [->|Hne].
    + intros [->|Hin]%elem_of_cons; [done|]. by apply IH.
    + intros [->|Hin]%elem_of_cons.
      * cbn. rewrite (proj2 (Ascii.eqb_neq c sep)) by done.
        apply IH. by left.
      * apply IH. by right.
Qed.

(** X18: a non-empty sortBy, sortOrder, searchColumns or preload parameter
    is cut at its commas: the parsed list joined with commas is the parameter
    again, and no parsed entry contains a comma. *)
Theorem comma_lists_round_trip (c : Values) :
  (Query c "sortBy" ≠ "" →
   Join (SortBy (ParseFromRequest c)) "," = Query c "sortBy"
   ∧ ∀ col, col ∈ SortBy (ParseFromRequest c) → hasByte "," col = false)
  ∧ (Query c "sortOrder" ≠ "" →
     Join (SortOrder (ParseFromRequest c)) "," = Query c "sortOrder"
     ∧ ∀ o, o ∈ SortOrder (ParseFromRequest c) → hasByte "," o = false)
  ∧ (Query c "searchColumns" ≠ "" →
     Join (SearchColumns (ParseFromRequest c)) "," = Query c "searchColumns"
     ∧ ∀ col, col ∈ SearchColumns (ParseFromRequest c) → hasByte "," col = false)
  ∧ (Query c "preload" ≠ "" →
     Join (Preload (ParseFromRequest c)) "," = Query c "preload"
     ∧ ∀ name, name ∈ Preload (ParseFromRequest c) → hasByte "," name = false).
Proof.
  unfold ParseFromRequest.
  cbn [SortBy SortOrder SearchColumns Preload DefaultQueryOptions].
  repeat split; try (rewrite eqb_empty_false by done; apply Join_Split);
    intros piece; rewrite eqb_empty_false by done; apply Split_pieces.
Qed.

Lemma comma_lists_round_trip_witness :
  Join (SortBy (ParseFromRequest Sample.sortOnly)) "," = Query Sample.sortOnly "sortBy"
  ∧ ∀ col, col ∈ SortBy (ParseFromRequest Sample.sortOnly) → hasByte "," col = false.
Proof.
  apply (proj1 (comma_lists_round_trip Sample.sortOnly)). vm_compute. discriminate.
Defined.

(** ** The shipped registrations *)

Lemma shipped_lookup (reg : Registry) :
  let reg' := ExampleRegistration (RegisterDefaultConfigs reg) in
  (∃ cfg, GetConfig reg' "base_model" = Some cfg ∧ DefaultSort cfg = ["created_at"]
          ∧ SortableColumns cfg = ["id"; "created_at"; "updated_at"])
  ∧ (∃ cfg, GetConfig reg' "user" = Some cfg ∧ DefaultSort cfg = ["created_at"]
            ∧ SortableColumns cfg = ["name"; "email"; "created_at"; "updated_at"])
  ∧ (∃ cfg, GetConfig reg' "product" = Some cfg ∧ DefaultSort cfg = ["name"]
            ∧ SortableColumns cfg = ["name"; "price"; "created_at"; "updated_at"]).
Proof.
  cbv zeta. unfold ExampleRegistration, RegisterDefaultConfigs, RegisterConfig, GetConfig.
  split; [|split]; eexists.
  - rewrite !lookup_insert_ne by done. rewrite lookup_insert_eq. done.
  - rewrite lookup_insert_ne by done. rewrite lookup_insert_eq. done.
  - rewrite lookup_insert_eq. done.
Qed.

Lemma default_order_of (reg : Registry) et cfg d db opts :
  GetConfig reg et = Some cfg → DefaultSort cfg = [d] →
  Contains (SortableColumns cfg) d = true → SortBy opts = [] →
  applySorting (NewQueryBuilder reg et) reg db opts = db ++ [CallOrder (d +:+ " asc")].
Proof.
  intros Hget Hd Hin Hs.
  rewrite (applySorting_default _ _ _ _ cfg); [|done|done|by rewrite Hd].
  rewrite Hd, filter_cons, decide_True; [done|].
  cbn [entityType NewQueryBuilder]. unfold keepSort, IsValidSortColumn.
  rewrite Hget, Hin. apply orb_true_r.
Qed.

(** X19: after [RegisterDefaultConfigs] and [ExampleRegistration], on any
    earlier registry, a query with empty SortBy is ordered by "created_at"
    ascending for "base_model" and for "user" and by "name" ascending for
    "product": each shipped default sort column is in its own sortable
    whitelist. *)
Theorem shipped_default_orders (reg : Registry) (db : DB) (opts : QueryOptions) :
  SortBy opts = [] →
  let reg' := ExampleRegistration (RegisterDefaultConfigs reg) in
  applySorting (NewQueryBuilder reg' "base_model") reg' db opts
  = db ++ [CallOrder "created_at asc"]
  ∧ applySorting (NewQueryBuilder reg' "user") reg' db opts
    = db ++ [CallOrder "created_at asc"]
  ∧ applySorting (NewQueryBuilder reg' "product") reg' db opts
    = db ++ [CallOrder "name asc"].
Proof.
  intros Hs. cbv zeta.
  destruct (shipped_lookup reg) as ((c1 & G1 & D1 & S1) & (c2 & G2 & D2 & S2)
                                    & (c3 & G3 & D3 & S3)).
  split; [|split].
  - apply (default_order_of _ _ c1 "created_at"); try done. by rewrite S1.
  - apply (default_order_of _ _ c2 "created_at"); try done. by rewrite S2.
  - apply (default_order_of _ _ c3 "name"); try done. by rewrite S3.
Qed.

Lemma shipped_default_orders_witness :
  applySorting (NewQueryBuilder (ExampleRegistration (RegisterDefaultConfigs ∅)) "product")
    (ExampleRegistration (RegisterDefaultConfigs ∅)) []
    (Sample.options 1 20 [] [] "" [])
  = [] ++ [CallOrder "name asc"].
Proof.
  apply (shipped_default_orders ∅ [] (Sample.options 1 20 [] [] "" [])). reflexivity.
Defined.
